(** * pyasana.client: option layering, request execution and pagination

    A shallow embedding of [src/pyasana/client.py] and the properties its
    specification states about it.

    Conventions of the embedding.
    - Python values are the inductive [value]; dictionaries with string keys
      (keyword arguments, JSON objects) are [gmap string value].
    - Python integers are [Z]; Python floats are binary64 primitive floats,
      so [float('inf')] and its arithmetic are the real ones.
    - The language semantics is Python 3: ordering a number against a
      non-number raises [TypeError]; a [StopIteration] escaping a generator
      body is governed by PEP 479 (a flag, on from Python 3.7).
    - The transport ([session]) and the clock ([time.sleep]) are external:
      the server is the list of responses it will give, one per call, and
      every call and every sleep is appended to a trace.  A sleep records
      its argument and returns.
    - [Unmodelled] marks behaviour of Python outside the embedding (for
      instance sequence repetition by [*]); no theorem relies on it. *)

From Stdlib Require Import ZArith PrimFloat SpecFloat FloatOps FloatAxioms.
From stdpp Require Import gmap strings list fin_maps.

(** ** Values *)

Inductive value : Type :=
  | VNone
  | VBool (b : bool)
  | VInt (z : Z)
  | VFloat (f : float)
  | VStr (s : string)
  | VList (items : list value)
  | VDict (entries : gmap string value).

Abbreviation dict := (gmap string value).

(** A transport response: [response.status_code], [response.json()] (absent
    when the body does not decode) and the wait the server reports with a
    rate limit. *)
Record response := {
  status_code : Z;
  json : option value;
  retry_after_seconds : value
}.

(** Modelled from the spec: the module [error] (error.py) is not among the
    sources.  A class of it is known by the status its instances carry
    ([Klass().status], absent for the base classes), by whether it derives
    from [RetryableAsanaError] and by whether it is
    [RateLimitEnforcedError]. *)
Record error_class := {
  class_name : string;
  status : option Z;
  retryable : bool;
  rate_limit : bool
}.

(** The contents of [error.__dict__], in definition order. *)
Class ErrorModule := { error__dict__ : list error_class }.

Inductive exn :=
  | AsanaError (Klass : error_class) (r : response)
  | TypeError
  | KeyError (key : string)
  | ValueError
  | OverflowError
  | AttributeError
  | NameError (name : string)
  | StopIteration
  | RuntimeError.

(** Modelled from the spec: [e.retry_after] of a rate-limit error is the
    wait extracted from the response. *)
Definition retry_after (e : exn) : value :=
  match e with
  | AsanaError _ r => retry_after_seconds r
  | _ => VNone
  end.

(** ** Results and effects *)

Inductive outcome (A : Type) :=
  | Ok (a : A)
  | Raise (e : exn)
  | Blocked       (* waiting for a response the server script does not hold *)
  | Unmodelled.
Arguments Ok {A} a.
Arguments Raise {A} e.
Arguments Blocked {A}.
Arguments Unmodelled {A}.

Definition rbind {A B} (c : outcome A) (k : A → outcome B) : outcome B :=
  match c with
  | Ok a => k a
  | Raise e => Raise e
  | Blocked => Blocked
  | Unmodelled => Unmodelled
  end.

Inductive event :=
  | Get (path : value) (query : dict) (options : dict)
  | Transport (method : string) (url : string) (request_options : dict)
  | Sleep (seconds : value).

Record world := {
  server : list response;
  trace : list event
}.

Definition M (A : Type) : Type := world → outcome A * world.

Definition ret {A} (a : A) : M A := λ w, (Ok a, w).
Definition lift {A} (c : outcome A) : M A := λ w, (c, w).
Definition bind {A B} (c : M A) (k : A → M B) : M B :=
  λ w, match c w with
       | (Ok a, w') => k a w'
       | (Raise e, w') => (Raise e, w')
       | (Blocked, w') => (Blocked, w')
       | (Unmodelled, w') => (Unmodelled, w')
       end.
Definition log (e : event) : M unit :=
  λ w, (Ok tt, {| server := server w; trace := trace w ++ [e] |}).

Declare Scope py_scope.
Delimit Scope py_scope with py.
Notation "x <- c1 ;; c2" := (bind c1 (λ x, c2))
  (at level 100, c1 at next level, right associativity) : py_scope.
Notation "c1 ;;; c2" := (bind c1 (λ _, c2))
  (at level 100, right associativity) : py_scope.
Notation "x <-! c1 ;; c2" := (rbind c1 (λ x, c2))
  (at level 100, c1 at next level, right associativity) : py_scope.
Open Scope py_scope.

(** ** Python operators on values *)

Inductive number := NInt (z : Z) | NFloat (f : float).

(** [bool] is a subclass of [int]. *)
Definition as_number (v : value) : option number :=
  match v with
  | VBool b => Some (NInt (Z.b2z b))
  | VInt z => Some (NInt z)
  | VFloat f => Some (NFloat f)
  | _ => None
  end.

(** [float(z)]: round to nearest even, [OverflowError] beyond the range. *)
Definition float_of_int (z : Z) : outcome float :=
  match binary_normalize prec emax z 0 false with
  | S754_infinity _ => Raise OverflowError
  | sf => Ok (SF2Prim sf)
  end.

Definition is_sequence (v : value) : bool :=
  match v with VStr _ | VList _ => true | _ => false end.
Definition is_int (v : value) : bool :=
  match v with VBool _ | VInt _ => true | _ => false end.

(** [a * b] *)
Definition py_mul (a b : value) : outcome value :=
  match as_number a, as_number b with
  | Some (NInt x), Some (NInt y) => Ok (VInt (x * y))
  | Some (NFloat x), Some (NFloat y) => Ok (VFloat (x * y))
  | Some (NInt x), Some (NFloat y) =>
      x' <-! float_of_int x ;; Ok (VFloat (x' * y))
  | Some (NFloat x), Some (NInt y) =>
      y' <-! float_of_int y ;; Ok (VFloat (x * y'))
  | _, _ =>
      if (is_sequence a && is_int b) || (is_int a && is_sequence b)
      then Unmodelled else Raise TypeError
  end.

(** [v > 0] *)
Definition py_gt0 (v : value) : outcome bool :=
  match as_number v with
  | Some (NInt z) => Ok (0 <? z)%Z
  | Some (NFloat f) => Ok (0 <? f)%float
  | None => Raise TypeError
  end.

(** [v - 1] *)
Definition py_sub1 (v : value) : outcome value :=
  match as_number v with
  | Some (NInt z) => Ok (VInt (z - 1))
  | Some (NFloat f) => Ok (VFloat (f - 1))
  | None => Raise TypeError
  end.

(** [v == True], [v == False], [v == None], [v == 'literal'] *)
Definition eq_True (v : value) : bool :=
  match as_number v with
  | Some (NInt z) => (z =? 1)%Z
  | Some (NFloat f) => (f =? 1)%float
  | None => false
  end.
Definition eq_False (v : value) : bool :=
  match as_number v with
  | Some (NInt z) => (z =? 0)%Z
  | Some (NFloat f) => (f =? 0)%float
  | None => false
  end.
Definition eq_None (v : value) : bool :=
  match v with VNone => true | _ => false end.
Definition eq_str (v : value) (s : string) : bool :=
  match v with VStr s' => bool_decide (s' = s) | _ => false end.

(** Truth value of [v] in a condition. *)
Definition truthy (v : value) : bool :=
  match v with
  | VNone => false
  | VBool b => b
  | VInt z => negb (z =? 0)%Z
  | VFloat f => negb (f =? 0)%float
  | VStr s => match s with EmptyString => false | _ => true end
  | VList l => match l with [] => false | _ => true end
  | VDict d => negb (bool_decide (dom d = ∅))
  end.

(** [d[key]] on a dictionary *)
Definition getitem (d : dict) (key : string) : outcome value :=
  match d !! key with
  | Some v => Ok v
  | None => Raise (KeyError key)
  end.

(** [v[key]] on any value, for a string key *)
Definition subscript (v : value) (key : string) : outcome value :=
  match v with
  | VDict d => getitem d key
  | _ => Raise TypeError
  end.

(** ** Module level *)

(** [STATUS_MAP[Klass().status] = Klass] for every class of [error]; a later
    class replaces an earlier one with the same status. *)
Definition STATUS_MAP `{ErrorModule} : gmap (option Z) error_class :=
  foldl (λ m Klass, <[status Klass := Klass]> m) ∅ error__dict__.

(** [result.update(obj)] *)
Definition update (result obj : dict) : dict := obj ∪ result.

Definition _merge (objects : list dict) : dict := foldl update ∅ objects.

Definition omap_outcome {A B} (f : A → B) (c : outcome A) : outcome B :=
  match c with
  | Ok a => Ok (f a)
  | Raise e => Raise e
  | Blocked => Blocked
  | Unmodelled => Unmodelled
  end.
Notation "f <$$> c" := (omap_outcome f c) (at level 61, left associativity) : py_scope.

(** Binding of a call [f(..., **kwargs)]: a keyword that names a parameter
    already given is a [TypeError] at the call. *)
Definition bind_keywords (named : list string) (kwargs : dict) : outcome unit :=
  if existsb (λ k, bool_decide (is_Some (kwargs !! k))) named
  then Raise TypeError else Ok tt.

(** ** class Client *)

Module Client.

Record t := { options : dict }.

Definition DEFAULT_LIMIT : Z := 100.

Definition DEFAULTS : dict :=
  <["base_url" := VStr "https://app.asana.com/api/1.0"]>
  (<["limit" := VInt DEFAULT_LIMIT]>
  (<["poll_interval" := VInt 5]>
  (<["retries" := VInt 5]>
  (<["retry_delay" := VFloat 1]>
  (<["retry_backoff" := VFloat 2]>
  (<["full_payload" := VBool false]>
  (<["iterator_type" := VStr "pages"]> ∅))))))).

(** The constructor, called with keyword options; the session and the
    credentials belong to the transport, which is the [world]. *)
Definition __init__ (options : dict) : t :=
  {| options := _merge [DEFAULTS; options] |}.

Definition _merge_options (self : t) (objects : list dict) : dict :=
  _merge (options self :: objects).

Definition _select_options (self : t) (options : dict) (keys : list string) : dict :=
  let options := _merge_options self [options] in
  list_to_map (omap (λ key, (λ v, (key, v)) <$> options !! key) keys).

Definition _parse_query_options (self : t) (options : dict) : dict :=
  _select_options self options ["limit"; "offset"; "sync"].

(** [','.join(items)] *)
Fixpoint join (items : list value) : outcome string :=
  match items with
  | [] => Ok EmptyString
  | [VStr s] => Ok s
  | VStr s :: rest => r <-! join rest ;; Ok (s +:+ "," +:+ r)
  | _ => Raise TypeError
  end.

Definition _parse_api_options (self : t) (options : dict) (query_string : bool)
  : outcome dict :=
  let api_options := _select_options self options ["pretty"; "fields"; "expand"] in
  if query_string then
    foldr (λ key acc,
             query_api_options <-! acc ;;
             match api_options !! key with
             | None => Ok query_api_options
             | Some (VList items) =>
                 joined <-! join items ;;
                 Ok (<["opt_" +:+ key := VStr joined]> query_api_options)
             | Some v => Ok (<["opt_" +:+ key := v]> query_api_options)
             end)
          (Ok ∅) ["pretty"; "fields"; "expand"]
  else Ok api_options.

(** [json.dumps] of a boolean *)
Definition dumps_bool (v : value) : value :=
  match v with
  | VBool true => VStr "true"
  | VBool false => VStr "false"
  | _ => v
  end.

Definition _parse_request_options (self : t) (options : dict) : outcome dict :=
  let request_options := _select_options self options ["headers"; "params"; "data"] in
  match request_options !! "params" with
  | None => Ok request_options
  | Some (VDict params) =>
      Ok (<["params" := VDict (dumps_bool <$> params)]> request_options)
  | Some (VStr EmptyString) | Some (VList []) => Ok request_options
  | Some (VStr _) => Raise TypeError      (* a string is not indexed by a string *)
  | Some (VList _) => Unmodelled
  | Some _ => Raise TypeError             (* not iterable *)
  end.

(** [options['base_url'] + path] *)
Definition concat (a b : value) : outcome string :=
  match a, b with
  | VStr x, VStr y => Ok (x +:+ y)
  | VStr _, _ | _, VStr _ => Raise TypeError
  | _, _ => Unmodelled
  end.

(** [getattr(self.session, method)(url, auth=self.auth, ...)]: one call
    of the transport takes the next response of the server. *)
Definition transport (method url : string) (request_options : dict) : M response :=
  λ w, match server w with
       | [] => (Blocked, w)
       | r :: rest =>
           (Ok r, {| server := rest;
                     trace := trace w ++ [Transport method url request_options] |})
       end.

Definition sleep (seconds : value) : M unit := log (Sleep seconds).

(** The two locals the loop of [request] updates. *)
Record retry_state := { retries : value; retry_delay : value }.

Definition is_retryable (e : exn) : bool :=
  match e with AsanaError Klass _ => retryable Klass | _ => false end.
Definition is_rate_limit (e : exn) : bool :=
  match e with AsanaError Klass _ => rate_limit Klass | _ => false end.

(** The body of [try]. *)
Definition try_body `{ErrorModule} (method url : string)
    (request_options options : dict) : M value :=
  response <- transport method url request_options ;;
  match STATUS_MAP !! Some (status_code response) with
  | Some Klass => lift (Raise (AsanaError Klass response))
  | None =>
      full_payload <- lift (getitem options "full_payload") ;;
      body <- lift (match json response with
                    | Some v => Ok v
                    | None => Raise ValueError
                    end) ;;
      if truthy full_payload then ret body else lift (subscript body "data")
  end.

(** The body of [except error.RetryableAsanaError as e]. *)
Definition handler (options : dict) (st : retry_state) (e : exn) : M retry_state :=
  positive <- lift (py_gt0 (retries st)) ;;
  if (positive : bool) then
    retries' <- lift (py_sub1 (retries st)) ;;
    if is_rate_limit e then
      sleep (retry_after e) ;;;
      ret {| retries := retries'; retry_delay := retry_delay st |}
    else
      sleep (retry_delay st) ;;;
      retry_backoff <- lift (getitem options "retry_backoff") ;;
      retry_delay' <- lift (py_mul (retry_delay st) retry_backoff) ;;
      ret {| retries := retries'; retry_delay := retry_delay' |}
  else lift (Raise e).

(** One iteration of [while True]: a value to return, or the state of
    the next iteration. *)
Definition iteration `{ErrorModule} (method url : string)
    (request_options options : dict) (st : retry_state)
  : M (value + retry_state) :=
  λ w, match try_body method url request_options options w with
       | (Ok v, w') => (Ok (inl v), w')
       | (Raise e, w') =>
           if is_retryable e
           then (st' <- handler options st e ;; ret (inr st')) w'
           else (Raise e, w')
       | (Blocked, w') => (Blocked, w')
       | (Unmodelled, w') => (Unmodelled, w')
       end.

(** [while True]: every iteration takes one response, so the number of
    responses left bounds the iterations the script can serve. *)
Fixpoint loop `{ErrorModule} (fuel : nat) (method url : string)
    (request_options options : dict) (st : retry_state) : M value :=
  match fuel with
  | O => lift Blocked
  | S fuel =>
      r <- iteration method url request_options options st ;;
      match r with
      | inl v => ret v
      | inr st' => loop fuel method url request_options options st'
      end
  end.

Definition request `{ErrorModule} (self : t) (method : string) (path : value)
    (options : dict) : M value :=
  let options := _merge_options self [options] in
  base_url <- lift (getitem options "base_url") ;;
  url <- lift (concat base_url path) ;;
  configured <- lift (getitem options "retries") ;;
  let retries := if eq_True configured then VFloat infinity else configured in
  retry_delay <- lift (getitem options "retry_delay") ;;
  request_options <- lift (_parse_request_options self options) ;;
  λ w, loop (length (server w)) method url request_options options
            {| retries := retries; retry_delay := retry_delay |} w.

Definition get `{ErrorModule} (self : t) (path : value) (query options : dict)
  : M value :=
  log (Get path query options) ;;;
  api_options <- lift (_parse_api_options self options true) ;;
  let query_options := _parse_query_options self options in
  let query := _merge [query_options; api_options; query] in
  lift (bind_keywords ["self"; "method"; "path"; "params"] options) ;;;
  request self "get" path (<["params" := VDict query]> options).

End Client.

(** ** class _PageIterator *)

Module _PageIterator.

Record t := {
  client : Client.t;
  path : value;
  query : dict;
  options : dict;
  next_page : value
}.

Definition __init__ (client : Client.t) (path : value) (query options : dict) : t :=
  {| client := client;
     path := path;
     query := query;
     options := _merge [options; {["full_payload" := VBool true]}];
     next_page := VBool false |}.

Definition set_options (self : t) (options : dict) : t :=
  {| client := client self; path := path self; query := query self;
     options := options; next_page := next_page self |}.
Definition set_next_page (self : t) (next_page : value) : t :=
  {| client := client self; path := path self; query := query self;
     options := options self; next_page := next_page |}.

(** [self.next_page = result.get('next_page', None)] and then
    [return result['data']]. *)
Definition store_and_return (self : t) (result : value) : outcome value * t :=
  match result with
  | VDict envelope =>
      (getitem envelope "data",
       set_next_page self (default VNone (envelope !! "next_page")))
  | _ => (Raise AttributeError, self)
  end.

(** The call of [get] a step makes: the first one goes to the path and
    the query the iterator was built with, a later one drops [offset]
    from the options the iterator carries and follows the cursor.  The
    iterator comes back as the call left it. *)
Definition fetch `{ErrorModule} (self : t) (w : world) : outcome value * t * world :=
  if eq_False (next_page self) then
    let '(r, w') :=
      (lift (bind_keywords ["self"; "path"; "query"] (options self)) ;;;
       Client.get (client self) (path self) (query self) (options self)) w in
    (r, self, w')
  else
    let self := set_options self (delete "offset" (options self)) in
    let '(r, w') :=
      (cursor_path <- lift (subscript (next_page self) "path") ;;
       lift (bind_keywords ["self"; "path"; "query"] (options self)) ;;;
       Client.get (client self) cursor_path ∅ (options self)) w in
    (r, self, w').

(** A step returns its outcome with the iterator as the step left it. *)
Definition __next__ `{ErrorModule} (self : t) (w : world) : outcome value * t * world :=
  if negb (eq_None (next_page self)) then
    match fetch self w with
    | (Ok result, self, w') => (store_and_return self result, w')
    | (Raise e, self, w') => (Raise e, self, w')
    | (Blocked, self, w') => (Blocked, self, w')
    | (Unmodelled, self, w') => (Unmodelled, self, w')
    end
  else (Raise StopIteration, self, w).

Definition next `{ErrorModule} (self : t) := __next__ self.

End _PageIterator.

(** ** class Client, the collection methods *)

Definition _get_page_iterator (self : Client.t) (path : value) (query options : dict)
  : _PageIterator.t :=
  _PageIterator.__init__ self path query options.

(** The generator object of [_get_item_iterator]: not started (calling the
    generator function runs none of its body), suspended at [yield] inside
    a page with the items still to come, or finished. *)
Inductive generator :=
  | Created (self : Client.t) (path : value) (query options : dict)
  | Suspended (pages : _PageIterator.t) (rest : list value)
  | Finished.

(** The items [for item in page] visits. *)
Definition iterate (page : value) : outcome (list value) :=
  match page with
  | VList items => Ok items
  | VStr s => Ok ((λ c, VStr (String c EmptyString)) <$> String.list_ascii_of_string s)
  | VDict _ => Unmodelled           (* keys in insertion order *)
  | _ => Raise TypeError
  end.

(** Run the body of the generator up to its next [yield].  When the page
    iterator ends, the body reaches [raise StopIteration]: under PEP 479
    the generator machinery turns it into [RuntimeError], before it the
    exception ended the generator as a [return] would.  Every page fetched
    takes a response, which bounds the pages one resumption can skip. *)
Fixpoint resume `{ErrorModule} (pep479 : bool) (fuel : nat)
    (pages : _PageIterator.t) (rest : list value) (w : world)
  : outcome value * generator * world :=
  match rest with
  | item :: rest => (Ok item, Suspended pages rest, w)
  | [] =>
      match fuel with
      | O => (Blocked, Suspended pages [], w)
      | S fuel =>
          match _PageIterator.__next__ pages w with
          | (Ok page, pages', w') =>
              match iterate page with
              | Ok items => resume pep479 fuel pages' items w'
              | Raise e => (Raise e, Finished, w')
              | Blocked => (Blocked, Finished, w')
              | Unmodelled => (Unmodelled, Finished, w')
              end
          | (Raise StopIteration, _, w') =>
              (Raise (if pep479 then RuntimeError else StopIteration), Finished, w')
          | (Raise e, _, w') => (Raise e, Finished, w')
          | (Blocked, pages', w') => (Blocked, Suspended pages' [], w')
          | (Unmodelled, _, w') => (Unmodelled, Finished, w')
          end
      end
  end.

(** [next(generator)] *)
Definition generator_next `{ErrorModule} (pep479 : bool) (g : generator) (w : world)
  : outcome value * generator * world :=
  match g with
  | Created self path query options =>
      resume pep479 (S (length (server w)))
             (_get_page_iterator self path query options) [] w
  | Suspended pages rest => resume pep479 (S (length (server w))) pages rest w
  | Finished => (Raise StopIteration, Finished, w)
  end.

Definition _get_item_iterator (self : Client.t) (path : value) (query options : dict)
  : generator :=
  Created self path query options.

(** How a consumer ([for item in generator], [list(generator)]) sees the
    end of the iteration. *)
Inductive ending :=
  | Exhausted                (* [StopIteration]: the normal end *)
  | Failed (e : exn)
  | Waiting                  (* the server script ran out *)
  | Beyond.                  (* out of the model, or out of fuel *)

(** Pull items until the generator stops. *)
Fixpoint consume `{ErrorModule} (pep479 : bool) (fuel : nat) (g : generator) (w : world)
  : list value * ending * world :=
  match fuel with
  | O => ([], Beyond, w)
  | S fuel =>
      match generator_next pep479 g w with
      | (Ok item, g', w') =>
          let '(items, e, w'') := consume pep479 fuel g' w' in
          (item :: items, e, w'')
      | (Raise StopIteration, _, w') => ([], Exhausted, w')
      | (Raise e, _, w') => ([], Failed e, w')
      | (Blocked, _, w') => ([], Waiting, w')
      | (Unmodelled, _, w') => ([], Beyond, w')
      end
  end.

(** What [get_collection] returns. *)
Inductive collection :=
  | Pages (iterator : _PageIterator.t)
  | Items (iterator : generator)
  | Data (payload : value).

(** The last line names [Error], which the module neither defines nor
    imports: evaluating the name raises [NameError] before the message is
    built. *)
Definition get_collection `{ErrorModule} (self : Client.t) (path : value)
    (query options : dict) : M collection :=
  let options := Client._merge_options self [options] in
  iterator_type <- lift (getitem options "iterator_type") ;;
  if eq_str iterator_type "pages" then
    lift (bind_keywords ["self"; "path"; "query"] options) ;;;
    ret (Pages (_get_page_iterator self path query options))
  else if eq_str iterator_type "items" then
    lift (bind_keywords ["self"; "path"; "query"] options) ;;;
    ret (Items (_get_item_iterator self path query options))
  else if eq_None iterator_type then
    lift (bind_keywords ["self"; "path"; "query"] options) ;;;
    payload <- Client.get self path query options ;;
    ret (Data payload)
  else lift (Raise (NameError "Error")).

(** ** class Client, the writing verbs *)

(** [json.dumps] of the standard library, as the encoder of request
    bodies: a parameter. *)
Class JsonEncoder := { dumps : value → string }.

Module Verbs.

Definition post `{JsonEncoder} `{ErrorModule} (self : Client.t) (path data : value)
    (options : dict) : M value :=
  let body : dict := {["data" := data]} in
  api_options <- lift (Client._parse_api_options self options false) ;;
  let body :=
    if bool_decide (0 < size api_options)
    then <["options" := VDict api_options]> body else body in
  lift (bind_keywords ["self"; "method"; "path"; "data"; "headers"] options) ;;;
  Client.request self "post" path
    (<["data" := VStr (dumps (VDict body))]>
       (<["headers" := VDict {["content-type" := VStr "application/json"]}]> options)).

Definition put `{JsonEncoder} `{ErrorModule} (self : Client.t) (path data : value)
    (options : dict) : M value :=
  let body : dict := {["data" := data]} in
  api_options <- lift (Client._parse_api_options self options false) ;;
  let body :=
    if bool_decide (0 < size api_options)
    then <["options" := VDict api_options]> body else body in
  lift (bind_keywords ["self"; "method"; "path"; "data"; "headers"] options) ;;;
  Client.request self "put" path
    (<["data" := VStr (dumps (VDict body))]>
       (<["headers" := VDict {["content-type" := VStr "application/json"]}]> options)).

(** The argument [data] is not used. *)
Definition delete `{ErrorModule} (self : Client.t) (path data : value)
    (options : dict) : M value :=
  lift (bind_keywords ["self"; "method"; "path"] options) ;;;
  Client.request self "delete" path options.

End Verbs.

(** ** The error taxonomy of the specification *)

Definition error_class_of (name : string) (code : Z) (retry limit : bool) : error_class :=
  {| class_name := name; status := Some code; retryable := retry; rate_limit := limit |}.

(** Modelled from the spec: the classes of the missing module [error], one
    per row of the taxonomy (status, kind, retryable), after the two base
    classes, whose instances carry no status. *)
Definition taxonomy : ErrorModule :=
  {| error__dict__ :=
       [ {| class_name := "AsanaError"; status := None;
            retryable := false; rate_limit := false |};
         {| class_name := "RetryableAsanaError"; status := None;
            retryable := true; rate_limit := false |};
         error_class_of "InvalidRequest" 400 false false;
         error_class_of "NoAuthorization" 401 false false;
         error_class_of "Forbidden" 403 false false;
         error_class_of "NotFound" 404 false false;
         error_class_of "InvalidRequest (conflict)" 409 false false;
         error_class_of "PreconditionFailed" 412 false false;
         error_class_of "RateLimitEnforced" 429 true true;
         error_class_of "ServerError" 500 true false;
         error_class_of "ServerError / Gateway" 502 true false;
         error_class_of "ServerError / Gateway" 503 true false;
         error_class_of "ServerError / Gateway" 504 true false ] |}.

(** ** Vocabulary of the properties *)

(** The classifier: the class [STATUS_MAP] holds for the status of a
    response, if any. *)
Definition classify `{ErrorModule} (r : response) : option error_class :=
  STATUS_MAP !! Some (status_code r).

(** The response raises an error the loop of [request] catches. *)
Definition retried `{ErrorModule} (r : response) : bool :=
  match classify r with
  | Some Klass => retryable Klass
  | None => false
  end.

(** The error caught is the rate-limit one. *)
Definition rate_limited `{ErrorModule} (r : response) : bool :=
  match classify r with
  | Some Klass => retryable Klass && rate_limit Klass
  | None => false
  end.

(** The error a classified response raises. *)
Definition error_of `{ErrorModule} (r : response) : option exn :=
  (λ Klass, AsanaError Klass r) <$> classify r.

Definition sleeps (tr : list event) : list value :=
  omap (λ e, match e with Sleep seconds => Some seconds | _ => None end) tr.

Definition transports (tr : list event) : list (string * string * dict) :=
  omap (λ e, match e with Transport m u o => Some (m, u, o) | _ => None end) tr.

(** The number of calls of the transport. *)
Definition attempts (tr : list event) : nat := length (transports tr).

Definition gets (tr : list event) : list (value * dict * dict) :=
  omap (λ e, match e with Get p q o => Some (p, q, o) | _ => None end) tr.

(** The counter allows [n] further retries: [n] times in a row it is
    positive and can be decremented. *)
Fixpoint allows (retries : value) (n : nat) : bool :=
  match n with
  | O => true
  | S n =>
      match py_gt0 retries, py_sub1 retries with
      | Ok true, Ok retries' => allows retries' n
      | _, _ => false
      end
  end.

(** The counter after [n] decrements. *)
Fixpoint spent (retries : value) (n : nat) : value :=
  match n with
  | O => retries
  | S n =>
      match py_sub1 retries with
      | Ok retries' => spent retries' n
      | _ => retries
      end
  end.

(** The product of the delay and the multiplier is defined: both are
    numbers, integers or floats in any combination, and an integer that
    meets a float can be converted to one. *)
Definition multiplies (d b : value) : bool :=
  match py_mul d b with
  | Ok _ => true
  | _ => false
  end.

Definition times (d b : value) : value :=
  match py_mul d b with
  | Ok v => v
  | _ => d
  end.





(** The waits a run of retried responses asks for: the server's for a
    rate limit, the next term of the backoff otherwise. *)
Fixpoint schedule `{ErrorModule} (d b : value) (script : list response) : list value :=
  match script with
  | [] => []
  | r :: rest =>
      if rate_limited r then retry_after_seconds r :: schedule d b rest
      else d :: schedule (times d b) b rest
  end.

(** The delay the loop holds after the run. *)
Fixpoint delay_after `{ErrorModule} (d b : value) (script : list response) : value :=
  match script with
  | [] => d
  | r :: rest =>
      if rate_limited r then delay_after d b rest
      else delay_after (times d b) b rest
  end.

(** The events of the run: a call of the transport, then the wait. *)
Definition retry_events (method url : string) (request_options : dict)
    (waits : list value) : list event :=
  flat_map (λ seconds, [Transport method url request_options; Sleep seconds]) waits.


(** The options [request] works with resolve: the URL parts are strings,
    the retry settings are present, the transport options are accepted. *)
Record resolves (self : Client.t) (options : dict) (path : value)
    (url : string) (configured delay : value) (request_options : dict) : Prop := {
  resolves_url :
    (base_url <-! getitem (Client._merge_options self [options]) "base_url" ;;
     Client.concat base_url path) = Ok url;
  resolves_retries :
    Client._merge_options self [options] !! "retries" = Some configured;
  resolves_delay :
    Client._merge_options self [options] !! "retry_delay" = Some delay;
  resolves_transport :
    Client._parse_request_options self (Client._merge_options self [options])
    = Ok request_options
}.

(** The counter [request] starts from. *)
Definition initial_retries (configured : value) : value :=
  if eq_True configured then VFloat infinity else configured.

(** The outcomes of [n] successive steps of a page iterator. *)
Fixpoint steps `{ErrorModule} (n : nat) (self : _PageIterator.t) (w : world)
  : list (outcome value) * _PageIterator.t * world :=
  match n with
  | O => ([], self, w)
  | S n =>
      let '(r, self', w') := _PageIterator.__next__ self w in
      let '(rs, self'', w'') := steps n self' w' in
      (r :: rs, self'', w'')
  end.

(** A key of the envelope is absent: missing, or JSON [null]. *)
Definition absent (entries : dict) (key : string) : Prop :=
  entries !! key = None ∨ entries !! key = Some VNone.

(** From [w] to [w'] the trace has grown by events that are no call of
    [get], and the server has given some of its responses. *)
Definition quiet (w w' : world) : Prop :=
  (∃ evs, trace w' = trace w ++ evs ∧ gets evs = [])
  ∧ length (server w') ≤ length (server w).

Definition calm {A} (c : M A) : Prop := ∀ w, quiet w (snd (c w)).

(** A computation that returns has taken a response. *)
Definition consuming {A} (c : M A) : Prop :=
  ∀ w a w', c w = (Ok a, w') → length (server w') < length (server w).

(** The page iterator, stepped from [it] in the world [w], produces the
    pages [pages] and then stops, leaving the world [w']. *)
Inductive page_run `{ErrorModule}
  : _PageIterator.t → world → list (list value) → world → Prop :=
  | run_end (it it' : _PageIterator.t) (w w' : world) :
      _PageIterator.__next__ it w = (Raise StopIteration, it', w') →
      page_run it w [] w'
  | run_page (it it1 : _PageIterator.t) (w w1 w' : world)
      (page : list value) (pages : list (list value)) :
      _PageIterator.__next__ it w = (Ok (VList page), it1, w1) →
      page_run it1 w1 pages w' →
      page_run it w (page :: pages) w'.

(** How the generator of items ends, as its consumer sees it. *)
Definition end_of_items (pep479 : bool) : ending :=
  if pep479 then Failed RuntimeError else Exhausted.

(** The query-string form of one API option, if the options hold it. *)
Definition query_form (entry : option value) : outcome (option value) :=
  match entry with
  | None => Ok None
  | Some (VList items) => (λ s, Some (VStr s)) <$$> Client.join items
  | Some v => Ok (Some v)
  end.

Definition put_entry (key : string) (entry : option value) (m : dict) : dict :=
  match entry with
  | Some v => <[key := v]> m
  | None => m
  end.

(** The query parameters [get] hands to [request]: the query options,
    under the API options in query-string form, under the query of the
    caller. *)
Definition query_of_get (self : Client.t) (api query options : dict) : dict :=
  _merge [Client._parse_query_options self options; api; query].

(** The body [post] and [put] encode. *)
Definition body_of_write (self : Client.t) (data : value) (options : dict) : dict :=
  let api := Client._select_options self options ["pretty"; "fields"; "expand"] in
  if bool_decide (0 < size api)
  then <["options" := VDict api]> {["data" := data]}
  else {["data" := data]}.

Definition content_type : dict := {["content-type" := VStr "application/json"]}.

(** A response with the status [code] whose body is the envelope of one
    page: its [data] and its [next_page]. *)
Definition page_of (code : Z) (page : list value) (next : value) : response :=
  {| status_code := code;
     json := Some (VDict (<["data" := VList page]> (<["next_page" := next]> ∅)));
     retry_after_seconds := VNone |}.

(** The responses of a collection sent page by page, all with the status
    [code]: every page but the last comes with the cursor of the next. *)
Fixpoint serve (code : Z) (first : list value) (more : list (string * list value))
  : list response :=
  match more with
  | [] => [page_of code first VNone]
  | (next, page) :: more =>
      page_of code first
        (VDict (<["path" := VStr next]> (<["offset" := VStr "X"]> ∅)))
      :: serve code page more
  end.

(** The options of a call let [get] fetch from [base]: the API options
    parse, no option rebinds a parameter of [get] or [request], the base URL
    is a string and the retry settings are present. *)
Record fetches (self : Client.t) (options : dict) (base : string) : Prop := {
  fetches_api : ∃ api, Client._parse_api_options self options true = Ok api;
  fetches_step : bind_keywords ["self"; "path"; "query"] options = Ok tt;
  fetches_call : bind_keywords ["self"; "method"; "path"; "params"] options = Ok tt;
  fetches_base : Client._merge_options self [options] !! "base_url" = Some (VStr base);
  fetches_retries : is_Some (Client._merge_options self [options] !! "retries");
  fetches_delay : is_Some (Client._merge_options self [options] !! "retry_delay")
}.

(** The keys [fetches] reads. *)
Definition settings : list string :=
  ["pretty"; "fields"; "expand"; "self"; "path"; "query"; "method"; "params";
   "base_url"; "retries"; "retry_delay"].

(** The iterator is about to ask for the page at [p]: with its first
    request, or by the cursor it holds. *)
Definition at_page (it : _PageIterator.t) (p : string) : Prop :=
  (_PageIterator.next_page it = VBool false ∧ _PageIterator.path it = VStr p)
  ∨ _PageIterator.next_page it
    = VDict (<["path" := VStr p]> (<["offset" := VStr "X"]> ∅)).

(** ** Sample responses and clients *)

Definition server_error : response :=
  {| status_code := 500; json := None; retry_after_seconds := VNone |}.

Definition too_many_requests (seconds : value) : response :=
  {| status_code := 429; json := None; retry_after_seconds := seconds |}.

Definition answer (code : Z) (body : value) : response :=
  {| status_code := code; json := Some body; retry_after_seconds := VNone |}.

Definition envelope (data next_page : value) : value :=
  VDict (<["data" := data]> (<["next_page" := next_page]> ∅)).

Definition cursor_entries (path : string) : dict :=
  <["path" := VStr path]> (<["offset" := VStr "X"]> ∅).

Definition cursor (path : string) : value := VDict (cursor_entries path).

Definition default_client : Client.t := Client.__init__ ∅.

Definition fresh (script : list response) : world :=
  {| server := script; trace := [] |}.

(** A collection of two pages, as the server sends it, and a collection
    of one page. *)
Definition two_pages : list response :=
  [ answer 200 (envelope (VList [VStr "t1"; VStr "t2"]) (cursor "/tasks?offset=X"));
    answer 200 (envelope (VList [VStr "t3"]) VNone) ].

Definition one_page : list response :=
  [ answer 200 (envelope (VList [VStr "t1"]) VNone) ].

(** The page iterator of a call with [offset] set. *)
Definition tasks_from_offset : _PageIterator.t :=
  _get_page_iterator default_client (VStr "/tasks") ∅
    (Client._merge_options default_client [<["offset" := VStr "A"]> ∅]).

(** The same iterator and the world after its first step on the
    collection of two pages. *)
Definition tasks_after_first_page : _PageIterator.t :=
  snd (fst (@_PageIterator.__next__ taxonomy tasks_from_offset (fresh two_pages))).

Definition world_after_first_page : world :=
  snd (@_PageIterator.__next__ taxonomy tasks_from_offset (fresh two_pages)).

(** A call that asks for an iterator type the client does not know. *)
Definition unknown_iterator_type : dict := <["iterator_type" := VStr "batches"]> ∅.

(** A query that filters on a boolean, and the options that carry it. *)
Definition completed_filter : dict := {["completed" := VBool true]}.

Definition completed_params : dict := {["params" := VDict completed_filter]}.

(** A call that asks for two fields, and its API options in query-string
    form. *)
Definition fields_option : dict :=
  {["fields" := VList [VStr "name"; VStr "notes"]]}.

Definition fields_query : dict := {["opt_fields" := VStr "name,notes"]}.

(** A call that passes headers of its own. *)
Definition headers_option : dict :=
  {["headers" := VDict {["accept" := VStr "text/plain"]}]}.

(** An encoder for the examples: every body encodes to the same text. *)
Definition constant_encoder : JsonEncoder := {| dumps := λ _, "{}" |}.




(** A client built with an [offset] of its own, and the page iterator of
    its collection after the first of two pages. *)
Definition client_with_offset : Client.t :=
  Client.__init__ (<["offset" := VStr "A"]> ∅).

Definition pages_of_client_with_offset : _PageIterator.t :=
  snd (fst (@_PageIterator.__next__ taxonomy
              (_get_page_iterator client_with_offset (VStr "/tasks") ∅
                 (Client._merge_options client_with_offset []))
              (fresh two_pages))).

(** Three tasks, served in two pages. *)
Definition tasks_served : list response :=
  serve 200 [VStr "t1"; VStr "t2"] [("/tasks?offset=X", [VStr "t3"])].

(** A call that asks for the items one by one. *)
Definition items_option : dict := {["iterator_type" := VStr "items"]}.

(** * Properties *)

(** C4 Option merge is a rightmost-wins shallow override: for three tiers
    [D], [C], [Q] and every key, the merged set holds the value of [Q] when
    [Q] has the key, else that of [C], else that of [D]; the chosen value
    is taken whole.  The same holds through the client, whose options are
    the merge of [D] and [C] and whose [_merge_options] adds [Q]. *)
Theorem merge_precedence (D C Q : dict) (k : string) :
  _merge [D; C; Q] !! k =
    match Q !! k with
    | Some v => Some v
    | None => match C !! k with
              | Some v => Some v
              | None => D !! k
              end
    end
  ∧ Client._merge_options {| Client.options := _merge [D; C] |} [Q] !! k
    = _merge [D; C; Q] !! k.
Proof.
  split.
  - unfold _merge, update; simpl.
    rewrite !lookup_union, lookup_empty.
    destruct (Q !! k), (C !! k), (D !! k); reflexivity.
  - unfold Client._merge_options, _merge, update; simpl.
    rewrite !lookup_union, lookup_empty.
    destruct (Q !! k), (C !! k), (D !! k); reflexivity.
Qed.

(** The override is shallow: a nested dictionary of a later tier replaces
    the one of an earlier tier, it is not merged into it. *)
Example merge_is_shallow :
  _merge [ {["headers" := VDict {["accept" := VStr "json"]}]};
           {["headers" := VDict {["agent" := VStr "asana"]}]} ] !! "headers"
  = Some (VDict {["agent" := VStr "asana"]}).
Proof. vm_compute. reflexivity. Qed.

(** ** The loop of [request] *)

Section RequestLoop.
Context `{ErrorModule}.
Variables (method url : string) (request_options options : dict).

Lemma iteration_unmapped (r : response) (rest : list response) (tr : list event)
    (st : Client.retry_state) :
  classify r = None →
  Client.iteration method url request_options options st
    {| server := r :: rest; trace := tr |}
  = (inl <$$> (full_payload <-! getitem options "full_payload" ;;
               body <-! match json r with
                        | Some v => Ok v
                        | None => Raise ValueError
                        end ;;
               if truthy full_payload then Ok body else subscript body "data"),
     {| server := rest;
        trace := tr ++ [Transport method url request_options] |}).
Proof.
  intros Hc. unfold classify in Hc.
  unfold Client.iteration, Client.try_body, Client.transport, bind, lift, ret; simpl.
  rewrite Hc. unfold getitem.
  destruct (options !! "full_payload") as [full|]; simpl; [|reflexivity].
  destruct (json r) as [body|]; simpl; [|reflexivity].
  destruct (truthy full); simpl; [reflexivity|].
  destruct body as [| | | | | |envelope]; simpl; try reflexivity.
  unfold getitem. destruct (envelope !! "data"); reflexivity.
Qed.

Lemma retried_classified (r : response) :
  retried r = true →
  ∃ Klass, classify r = Some Klass ∧ retryable Klass = true
           ∧ rate_limited r = rate_limit Klass.
Proof.
  unfold retried, rate_limited. destruct (classify r) as [Klass|]; [|discriminate].
  intros Hr. exists Klass. rewrite Hr. auto.
Qed.

(** What one iteration does with a response that raises a caught error. *)
Lemma iteration_retried (r : response) (rest : list response) (tr : list event)
    (st : Client.retry_state) (Klass : error_class) :
  classify r = Some Klass → retryable Klass = true →
  Client.iteration method url request_options options st
    {| server := r :: rest; trace := tr |}
  = (st' <- Client.handler options st (AsanaError Klass r) ;; ret (inr st'))
      {| server := rest; trace := tr ++ [Transport method url request_options] |}.
Proof.
  intros Hc Hr. unfold classify in Hc.
  unfold Client.iteration, Client.try_body, Client.transport; simpl.
  unfold bind at 1; simpl. rewrite Hc. unfold lift at 1; simpl.
  rewrite Hr. reflexivity.
Qed.

Lemma iteration_fatal (r : response) (rest : list response) (tr : list event)
    (st : Client.retry_state) (Klass : error_class) :
  classify r = Some Klass → retryable Klass = false →
  Client.iteration method url request_options options st
    {| server := r :: rest; trace := tr |}
  = (Raise (AsanaError Klass r),
     {| server := rest; trace := tr ++ [Transport method url request_options] |}).
Proof.
  intros Hc Hr. unfold classify in Hc.
  unfold Client.iteration, Client.try_body, Client.transport; simpl.
  unfold bind at 1; simpl. rewrite Hc. unfold lift at 1; simpl.
  rewrite Hr. reflexivity.
Qed.

Lemma handler_rate_limit (st : Client.retry_state) (Klass : error_class)
    (r : response) (retries' : value) (w : world) :
  rate_limit Klass = true →
  py_gt0 (Client.retries st) = Ok true →
  py_sub1 (Client.retries st) = Ok retries' →
  Client.handler options st (AsanaError Klass r) w
  = (Ok {| Client.retries := retries'; Client.retry_delay := Client.retry_delay st |},
     {| server := server w; trace := trace w ++ [Sleep (retry_after_seconds r)] |}).
Proof.
  intros Hl Hp Hs. unfold Client.handler, bind, lift, ret, Client.sleep, log; simpl.
  rewrite Hp, Hs, Hl. reflexivity.
Qed.

Lemma handler_backoff (st : Client.retry_state) (Klass : error_class)
    (r : response) (retries' b delay' : value) (w : world) :
  rate_limit Klass = false →
  py_gt0 (Client.retries st) = Ok true →
  py_sub1 (Client.retries st) = Ok retries' →
  options !! "retry_backoff" = Some b →
  py_mul (Client.retry_delay st) b = Ok delay' →
  Client.handler options st (AsanaError Klass r) w
  = (Ok {| Client.retries := retries'; Client.retry_delay := delay' |},
     {| server := server w; trace := trace w ++ [Sleep (Client.retry_delay st)] |}).
Proof.
  intros Hl Hp Hs Hb Hm.
  unfold Client.handler, bind, lift, ret, Client.sleep, log, getitem; simpl.
  rewrite Hp, Hs, Hl, Hb, Hm. reflexivity.
Qed.

Lemma handler_exhausted (st : Client.retry_state) (e : exn) (w : world) :
  py_gt0 (Client.retries st) = Ok false →
  Client.handler options st e w = (Raise e, w).
Proof.
  intros Hp. unfold Client.handler, bind, lift. rewrite Hp. reflexivity.
Qed.

Lemma multiplies_closed (d b : value) :
  multiplies d b = true →
  py_mul d b = Ok (times d b) ∧ multiplies (times d b) b = true.
Proof.
  unfold multiplies, times.
  destruct (py_mul d b) as [v| | |] eqn:Hm; try discriminate. intros _.
  split; [reflexivity|]. revert Hm. unfold py_mul.
  destruct (as_number d) as [[x|x]|] eqn:Hd, (as_number b) as [[y|y]|] eqn:Hb.
  - intros Heq. inversion Heq; subst. reflexivity.
  - destruct (float_of_int x) as [z| | |]; try discriminate.
    intros Heq. inversion Heq; subst. reflexivity.
  - destruct ((is_sequence d && is_int b) || (is_int d && is_sequence b));
      discriminate.
  - destruct (float_of_int y) as [z| | |] eqn:Hz; try discriminate.
    intros Heq. inversion Heq; subst. reflexivity.
  - intros Heq. inversion Heq; subst. reflexivity.
  - destruct ((is_sequence d && is_int b) || (is_int d && is_sequence b));
      discriminate.
  - destruct ((is_sequence d && is_int b) || (is_int d && is_sequence b));
      discriminate.
  - destruct ((is_sequence d && is_int b) || (is_int d && is_sequence b));
      discriminate.
  - destruct ((is_sequence d && is_int b) || (is_int d && is_sequence b));
      discriminate.
Qed.

(** A run of retried responses within the budget is absorbed whole: the
    loop goes on, on what the server holds next, with the counter spent
    and the delay advanced, having called and slept once per response. *)
Lemma loop_absorbs (b : value) (script rest : list response) :
  options !! "retry_backoff" = Some b →
  Forall (λ r, retried r = true) script →
  ∀ (st : Client.retry_state) (tr : list event),
  allows (Client.retries st) (length script) = true →
  multiplies (Client.retry_delay st) b = true →
  Client.loop (length (script ++ rest)) method url request_options options st
    {| server := script ++ rest; trace := tr |}
  = Client.loop (length rest) method url request_options options
      {| Client.retries := spent (Client.retries st) (length script);
         Client.retry_delay := delay_after (Client.retry_delay st) b script |}
      {| server := rest;
         trace := tr ++ retry_events method url request_options
                          (schedule (Client.retry_delay st) b script) |}.
Proof.
  intros Hb Hall. induction Hall as [|r script Hr Hall IH]; intros st tr Hbudget Hmul.
  - simpl. rewrite app_nil_r. destruct st; reflexivity.
  - destruct (retried_classified r Hr) as (Klass & Hc & Hretry & Hlimit).
    simpl in Hbudget.
    destruct (py_gt0 (Client.retries st)) as [[|]| | |] eqn:Hp; try discriminate.
    destruct (py_sub1 (Client.retries st)) as [retries'| | |] eqn:Hs; try discriminate.
    cbn [app length Client.loop schedule delay_after spent].
    rewrite Hs, Hlimit.
    unfold bind at 1. rewrite (iteration_retried r _ tr st Klass Hc Hretry).
    unfold bind at 1.
    destruct (rate_limit Klass) eqn:Hl.
    + rewrite (handler_rate_limit st Klass r retries' _ Hl Hp Hs).
      unfold ret; cbn [server trace].
      rewrite IH by assumption. cbn [Client.retries Client.retry_delay].
      unfold retry_events; simpl. rewrite <- !app_assoc. reflexivity.
    + destruct (multiplies_closed _ _ Hmul) as [Hm Hmul'].
      rewrite (handler_backoff st Klass r retries' b _ _ Hl Hp Hs Hb Hm).
      unfold ret; cbn [server trace].
      rewrite IH by assumption. cbn [Client.retries Client.retry_delay].
      unfold retry_events; simpl. rewrite <- !app_assoc. reflexivity.
Qed.

End RequestLoop.

(** ** Counters, delays and traces *)

Lemma allows_infinity (n : nat) : allows (VFloat infinity) n = true.
Proof. induction n as [|n IH]; [reflexivity|]. exact IH. Qed.

Lemma spent_infinity (n : nat) : spent (VFloat infinity) n = VFloat infinity.
Proof. induction n as [|n IH]; [reflexivity|]. exact IH. Qed.

Lemma allows_int (n : nat) : ∀ z : Z, (Z.of_nat n ≤ z)%Z → allows (VInt z) n = true.
Proof.
  induction n as [|n IH]; intros z Hz; [reflexivity|].
  cbn [allows py_gt0 py_sub1 as_number].
  replace (0 <? z)%Z with true by (symmetry; apply Z.ltb_lt; lia).
  apply IH. lia.
Qed.

Lemma spent_int (n : nat) : ∀ z : Z, spent (VInt z) n = VInt (z - Z.of_nat n).
Proof.
  induction n as [|n IH]; intros z.
  - simpl. f_equal. lia.
  - cbn [spent py_sub1 as_number]. rewrite IH. f_equal. lia.
Qed.

Lemma allows_fewer (n : nat) : ∀ v : value, allows v (S n) = true → allows v n = true.
Proof.
  induction n as [|n IH]; intros v Hv; [reflexivity|].
  cbn [allows] in Hv |- *.
  destruct (py_gt0 v) as [[|]| | |]; try discriminate.
  destruct (py_sub1 v) as [v'| | |]; try discriminate.
  apply IH, Hv.
Qed.

Lemma allows_le (n m : nat) (v : value) : m ≤ n → allows v n = true → allows v m = true.
Proof.
  induction 1 as [|n Hle IH]; [auto|]. intros Hv. apply IH, allows_fewer, Hv.
Qed.







Lemma sleeps_app (tr1 tr2 : list event) : sleeps (tr1 ++ tr2) = sleeps tr1 ++ sleeps tr2.
Proof. apply omap_app. Qed.

Lemma attempts_app (tr1 tr2 : list event) :
  attempts (tr1 ++ tr2) = attempts tr1 + attempts tr2.
Proof. unfold attempts, transports. rewrite omap_app, length_app. reflexivity. Qed.

Lemma retry_events_cons (method url : string) (ro : dict) (x : value)
    (waits : list value) :
  retry_events method url ro (x :: waits)
  = [Transport method url ro; Sleep x] ++ retry_events method url ro waits.
Proof. reflexivity. Qed.

Lemma sleeps_retry_events (method url : string) (ro : dict) (waits : list value) :
  sleeps (retry_events method url ro waits) = waits.
Proof.
  induction waits as [|x waits IH]; [reflexivity|].
  rewrite retry_events_cons, sleeps_app, IH. reflexivity.
Qed.

Lemma attempts_retry_events (method url : string) (ro : dict) (waits : list value) :
  attempts (retry_events method url ro waits) = length waits.
Proof.
  induction waits as [|x waits IH]; [reflexivity|].
  rewrite retry_events_cons, attempts_app, IH. reflexivity.
Qed.

Section Schedule.
Context `{ErrorModule}.
Variable b : value.

Lemma schedule_length (script : list response) :
  ∀ d, length (schedule d b script) = length script.
Proof.
  induction script as [|r script IH]; intros d; [reflexivity|].
  simpl. destruct (rate_limited r); simpl; rewrite IH; reflexivity.
Qed.

Lemma schedule_app (pre post : list response) :
  ∀ d, schedule d b (pre ++ post)
       = schedule d b pre ++ schedule (delay_after d b pre) b post.
Proof.
  induction pre as [|r pre IH]; intros d; [reflexivity|].
  simpl. destruct (rate_limited r); simpl; rewrite IH; reflexivity.
Qed.



(** The wait after a rate-limit retry is the one the server reported. *)
Lemma schedule_rate_limit (script : list response) :
  ∀ (d : value) (i : nat) (r : response),
  script !! i = Some r → rate_limited r = true →
  schedule d b script !! i = Some (retry_after_seconds r).
Proof.
  induction script as [|r0 script IH]; intros d i r Hi Hr; [discriminate|].
  destruct i as [|i].
  - simpl in Hi. injection Hi as ->. simpl. rewrite Hr. reflexivity.
  - simpl in Hi. simpl. destruct (rate_limited r0); simpl; eauto.
Qed.

End Schedule.

(** ** [request] *)

Section Request.
Context `{ErrorModule}.
Variables (self : Client.t) (method : string) (path : value) (options : dict).
Variables (url : string) (configured delay : value) (request_options : dict).
Hypothesis Hresolves : resolves self options path url configured delay request_options.

(** With options that resolve, [request] is its loop. *)
Lemma request_resolved (w : world) :
  Client.request self method path options w
  = Client.loop (length (server w)) method url request_options
      (Client._merge_options self [options])
      {| Client.retries := initial_retries configured;
         Client.retry_delay := delay |} w.
Proof.
  destruct Hresolves as [Hurl Hretries Hdelay Htransport].
  unfold Client.request.
  unfold bind, lift, getitem in *.
  rewrite Hretries, Hdelay, Htransport.
  destruct (Client._merge_options self [options] !! "base_url") as [base|];
    [|discriminate].
  simpl in Hurl. rewrite Hurl. reflexivity.
Qed.

(** A run of retried responses within the budget, served to [request]. *)
Lemma request_absorbs (b : value) (script rest : list response) (tr : list event) :
  Client._merge_options self [options] !! "retry_backoff" = Some b →
  multiplies delay b = true →
  Forall (λ r, retried r = true) script →
  allows (initial_retries configured) (length script) = true →
  Client.request self method path options {| server := script ++ rest; trace := tr |}
  = Client.loop (length rest) method url request_options
      (Client._merge_options self [options])
      {| Client.retries := spent (initial_retries configured) (length script);
         Client.retry_delay := delay_after delay b script |}
      {| server := rest;
         trace := tr ++ retry_events method url request_options
                          (schedule delay b script) |}.
Proof.
  intros Hb Hmul Hall Hbudget. rewrite request_resolved. cbn [server].
  apply (loop_absorbs method url request_options
           (Client._merge_options self [options]) b script rest Hb Hall
           {| Client.retries := initial_retries configured;
              Client.retry_delay := delay |} tr Hbudget Hmul).
Qed.

End Request.

(** An unbounded counter absorbs every retried response: [request] is
    still asking the transport when the script ends. *)
Lemma unbounded_absorbs `{ErrorModule} (self : Client.t) (method : string)
    (path : value) (options : dict) (url : string) (configured delay b : value)
    (ro : dict) (script : list response) (tr : list event) :
  resolves self options path url configured delay ro →
  eq_True configured = true →
  Client._merge_options self [options] !! "retry_backoff" = Some b →
  multiplies delay b = true →
  Forall (λ r, retried r = true) script →
  Client.request self method path options {| server := script; trace := tr |}
  = (Blocked,
     {| server := [];
        trace := tr ++ retry_events method url ro (schedule delay b script) |}).
Proof.
  intros Hres Hsentinel Hb Hmul Hall.
  rewrite <- (app_nil_r script) at 1.
  rewrite (request_absorbs self method path options url configured delay ro Hres
             b script [] tr Hb Hmul Hall).
  - reflexivity.
  - unfold initial_retries. rewrite Hsentinel. apply allows_infinity.
Qed.

(** A counter of [n] retries, [n] an integer other than 1, is spent by [n]
    retried responses; the next one propagates, as raised, after [n + 1]
    calls of the transport. *)
Lemma bounded_retries_exhaust `{ErrorModule} (self : Client.t) (method : string)
    (path : value) (options : dict) (url : string) (n : Z) (delay b : value)
    (ro : dict) (pre post : list response) (r : response) (e : exn)
    (tr : list event) :
  resolves self options path url (VInt n) delay ro →
  n ≠ 1%Z →
  Z.of_nat (length pre) = n →
  Client._merge_options self [options] !! "retry_backoff" = Some b →
  multiplies delay b = true →
  Forall (λ r, retried r = true) pre →
  retried r = true →
  error_of r = Some e →
  Client.request self method path options {| server := pre ++ r :: post; trace := tr |}
  = (Raise e,
     {| server := post;
        trace := tr ++ retry_events method url ro (schedule delay b pre)
                    ++ [Transport method url ro] |})
  ∧ attempts (retry_events method url ro (schedule delay b pre)
              ++ [Transport method url ro]) = S (length pre).
Proof.
  intros Hres Hn Hlen Hb Hmul Hall Hr He.
  assert (Hinit : initial_retries (VInt n) = VInt n).
  { unfold initial_retries, eq_True; simpl.
    destruct (Z.eqb_spec n 1); [contradiction|reflexivity]. }
  split.
  - rewrite (request_absorbs self method path options url (VInt n) delay ro Hres
               b pre (r :: post) tr Hb Hmul Hall).
    2:{ rewrite Hinit. apply allows_int. lia. }
    rewrite Hinit, spent_int.
    destruct (retried_classified r Hr) as (Klass & Hc & Hretry & _).
    unfold error_of in He. rewrite Hc in He. injection He as <-.
    cbn [length Client.loop]. unfold bind at 1.
    rewrite (iteration_retried _ _ _ _ r post _ _ Klass Hc Hretry).
    unfold bind at 1. rewrite handler_exhausted.
    + rewrite <- app_assoc. reflexivity.
    + cbn [Client.retries py_gt0 as_number]. f_equal. apply Z.ltb_ge.
      rewrite <- Hlen. apply Z.eq_le_incl, Z.sub_diag.
  - rewrite attempts_app, attempts_retry_events, schedule_length.
    change (attempts [Transport method url ro]) with 1. lia.
Qed.

(** ** The claims on retries, classification and waits *)

(** C1, at the input where the code departs from it: a client configured
    with [retries = 1] does not stop after two attempts.  The test
    [options['retries'] == True] holds of the integer 1, so the counter
    becomes [float('inf')]: every retried response is absorbed, one call of
    the transport each, and [request] asks for yet another attempt. *)
Theorem retries_one_never_exhausts `{ErrorModule} (self : Client.t) (method : string)
    (path : value) (options : dict) (url : string) (delay b : value)
    (ro : dict) (script : list response) (tr : list event) :
  resolves self options path url (VInt 1) delay ro →
  Client._merge_options self [options] !! "retry_backoff" = Some b →
  multiplies delay b = true →
  Forall (λ r, retried r = true) script →
  Client.request self method path options {| server := script; trace := tr |}
  = (Blocked,
     {| server := [];
        trace := tr ++ retry_events method url ro (schedule delay b script) |})
  ∧ attempts (retry_events method url ro (schedule delay b script)) = length script.
Proof.
  intros Hres Hb Hmul Hall. split.
  - apply (unbounded_absorbs self method path options url (VInt 1) delay b ro
             script tr Hres eq_refl Hb Hmul Hall).
  - rewrite attempts_retry_events. apply schedule_length.
Qed.

(** C2 With [retries] set to the sentinel of the unbounded budget (the
    code's is [True]), no retried failure is propagated for want of
    attempts: whatever the sequence of responses classified as retryable,
    each is absorbed, with one call of the transport and one wait, and
    [request] makes another attempt. *)
Theorem unbounded_retries_never_exhaust `{ErrorModule} (self : Client.t)
    (method : string) (path : value) (options : dict) (url : string)
    (delay b : value) (ro : dict) (script : list response) (tr : list event) :
  resolves self options path url (VBool true) delay ro →
  Client._merge_options self [options] !! "retry_backoff" = Some b →
  multiplies delay b = true →
  Forall (λ r, retried r = true) script →
  Client.request self method path options {| server := script; trace := tr |}
  = (Blocked,
     {| server := [];
        trace := tr ++ retry_events method url ro (schedule delay b script) |})
  ∧ attempts (retry_events method url ro (schedule delay b script)) = length script
  ∧ length (sleeps (retry_events method url ro (schedule delay b script)))
    = length script.
Proof.
  intros Hres Hb Hmul Hall. split; [|split].
  - apply (unbounded_absorbs self method path options url (VBool true) delay b ro
             script tr Hres eq_refl Hb Hmul Hall).
  - rewrite attempts_retry_events. apply schedule_length.
  - rewrite sleeps_retry_events. apply schedule_length.
Qed.

Lemma retries_one_never_exhausts_witness :
  @Client.request taxonomy default_client "get" (VStr "/tasks")
     (<["retries" := VInt 1]> ∅)
     {| server := [server_error; server_error; server_error; server_error];
        trace := [] |}
  = (Blocked,
     {| server := [];
        trace := [] ++ retry_events "get" "https://app.asana.com/api/1.0/tasks" ∅
                         (@schedule taxonomy (VFloat 1) (VFloat 2)
                            [server_error; server_error; server_error; server_error]) |})
  ∧ attempts (retry_events "get" "https://app.asana.com/api/1.0/tasks" ∅
                (@schedule taxonomy (VFloat 1) (VFloat 2)
                   [server_error; server_error; server_error; server_error]))
    = 4.
Proof.
  apply (@retries_one_never_exhausts taxonomy default_client "get" (VStr "/tasks")
           (<["retries" := VInt 1]> ∅) "https://app.asana.com/api/1.0/tasks"
           (VFloat 1) (VFloat 2) ∅
           [server_error; server_error; server_error; server_error] []).
  - split; vm_compute; reflexivity.
  - vm_compute; reflexivity.
  - reflexivity.
  - repeat constructor.
Defined.

Lemma unbounded_retries_never_exhaust_witness :
  @Client.request taxonomy default_client "get" (VStr "/tasks")
     (<["retries" := VBool true]> ∅)
     {| server := [server_error; too_many_requests (VInt 30); server_error];
        trace := [] |}
  = (Blocked,
     {| server := [];
        trace := [] ++ retry_events "get" "https://app.asana.com/api/1.0/tasks" ∅
                         (@schedule taxonomy (VFloat 1) (VFloat 2)
                            [server_error; too_many_requests (VInt 30);
                             server_error]) |})
  ∧ attempts (retry_events "get" "https://app.asana.com/api/1.0/tasks" ∅
                (@schedule taxonomy (VFloat 1) (VFloat 2)
                   [server_error; too_many_requests (VInt 30); server_error]))
    = 3
  ∧ length (sleeps (retry_events "get" "https://app.asana.com/api/1.0/tasks" ∅
                (@schedule taxonomy (VFloat 1) (VFloat 2)
                   [server_error; too_many_requests (VInt 30); server_error])))
    = 3.
Proof.
  apply (@unbounded_retries_never_exhaust taxonomy default_client "get"
           (VStr "/tasks") (<["retries" := VBool true]> ∅)
           "https://app.asana.com/api/1.0/tasks" (VFloat 1) (VFloat 2) ∅
           [server_error; too_many_requests (VInt 30); server_error] []).
  - split; vm_compute; reflexivity.
  - vm_compute; reflexivity.
  - reflexivity.
  - repeat constructor.
Defined.

(** C3, as the code has it.  A response whose status code is not in
    [STATUS_MAP] is no failure of the taxonomy: [request] makes that one
    call, without retry or wait, and its outcome is the outcome of decoding
    the body.  It returns the decoded body when [full_payload] is set and
    the [data] member of the body otherwise; it fails, with an error that
    is not of the taxonomy, only where the decoding does: [ValueError] for a
    body that is not JSON, and without [full_payload] [KeyError] for an
    object with no [data] member and [TypeError] for a body that is no
    object. *)
Theorem unmapped_status_is_decoded `{ErrorModule} (self : Client.t) (method : string)
    (path : value) (options : dict) (url : string) (configured delay : value)
    (ro : dict) (r : response) (rest : list response) (tr : list event) :
  resolves self options path url configured delay ro →
  classify r = None →
  Client.request self method path options {| server := r :: rest; trace := tr |}
  = ((full_payload <-! getitem (Client._merge_options self [options]) "full_payload" ;;
      body <-! match json r with
               | Some v => Ok v
               | None => Raise ValueError
               end ;;
      if truthy full_payload then Ok body else subscript body "data"),
     {| server := rest; trace := tr ++ [Transport method url ro] |})
  ∧ (∀ Klass r',
       fst (Client.request self method path options
              {| server := r :: rest; trace := tr |})
       ≠ Raise (AsanaError Klass r'))
  ∧ (∀ full,
       Client._merge_options self [options] !! "full_payload" = Some full →
       fst (Client.request self method path options
              {| server := r :: rest; trace := tr |})
       = match json r with
         | None => Raise ValueError
         | Some body =>
             if truthy full then Ok body
             else match body with
                  | VDict entries =>
                      match entries !! "data" with
                      | Some v => Ok v
                      | None => Raise (KeyError "data")
                      end
                  | _ => Raise TypeError
                  end
         end).
Proof.
  intros Hres Hc.
  assert (Heq : Client.request self method path options
                  {| server := r :: rest; trace := tr |}
                = ((full_payload <-! getitem (Client._merge_options self [options])
                                       "full_payload" ;;
                    body <-! match json r with
                             | Some v => Ok v
                             | None => Raise ValueError
                             end ;;
                    if truthy full_payload then Ok body else subscript body "data"),
                   {| server := rest; trace := tr ++ [Transport method url ro] |})).
  { rewrite (request_resolved self method path options url configured delay ro Hres).
    cbn [server length Client.loop]. unfold bind at 1.
    rewrite iteration_unmapped by assumption.
    destruct (full_payload <-! getitem (Client._merge_options self [options])
                                 "full_payload" ;; _); reflexivity. }
  split; [exact Heq|]. split.
  - intros Klass r'. rewrite Heq. cbn [fst]. unfold getitem.
    destruct (Client._merge_options self [options] !! "full_payload") as [full|];
      simpl; [|discriminate].
    destruct (json r) as [body|]; simpl; [|discriminate].
    destruct (truthy full); [discriminate|].
    destruct body as [| | | | | |entries]; simpl; try discriminate.
    unfold getitem. destruct (entries !! "data"); discriminate.
  - intros full Hfull. rewrite Heq. cbn [fst]. unfold getitem. rewrite Hfull.
    cbn [rbind]. destruct (json r) as [body|]; cbn [rbind]; [|reflexivity].
    destruct (truthy full); [reflexivity|].
    destruct body as [| | | | | |entries]; reflexivity.
Qed.

Lemma unmapped_status_is_decoded_witness :
  @Client.request taxonomy default_client "get" (VStr "/teapot") ∅
     {| server := [answer 418 (envelope (VInt 7) VNone)]; trace := [] |}
  = (Ok (VInt 7),
     {| server := [];
        trace := [Transport "get" "https://app.asana.com/api/1.0/teapot" ∅] |}).
Proof.
  exact (proj1 (@unmapped_status_is_decoded taxonomy default_client "get"
                  (VStr "/teapot") ∅ "https://app.asana.com/api/1.0/teapot"
                  (VInt 5) (VFloat 1) ∅ (answer 418 (envelope (VInt 7) VNone)) [] []
                  ltac:(split; vm_compute; reflexivity)
                  ltac:(vm_compute; reflexivity))).
Defined.

(** An unmapped status is not a success either when the body does not
    decode: an object without [data] ends in [KeyError], a body that is not
    JSON in [ValueError]. *)
Example unmapped_status_without_data :
  fst (@Client.request taxonomy default_client "get" (VStr "/teapot") ∅
         (fresh [answer 418 (VDict {["errors" := VList []]})]))
  = Raise (KeyError "data")
  ∧ fst (@Client.request taxonomy default_client "get" (VStr "/teapot") ∅
           (fresh [{| status_code := 418; json := None;
                      retry_after_seconds := VNone |}]))
    = Raise ValueError.
Proof. split; vm_compute; reflexivity. Qed.

(** C3 as stated fails: status 418 is outside the table of the taxonomy,
    and [request] returns the data of the body instead of raising. *)
Lemma unmapped_status_not_a_failure :
  @classify taxonomy (answer 418 (envelope (VInt 7) VNone)) = None
  ∧ fst (@Client.request taxonomy default_client "get" (VStr "/teapot") ∅
           (fresh [answer 418 (envelope (VInt 7) VNone)]))
    = Ok (VInt 7)
  ∧ ¬ ∃ e, fst (@Client.request taxonomy default_client "get" (VStr "/teapot") ∅
                  (fresh [answer 418 (envelope (VInt 7) VNone)]))
           = Raise e.
Proof.
  split; [vm_compute; reflexivity|].
  split; [vm_compute; reflexivity|].
  intros [e He]. vm_compute in He. discriminate He.
Qed.




(** With integers for both settings the waits are integers. *)
Example integer_backoff_waits :
  sleeps (trace (snd (@Client.request taxonomy default_client "get" (VStr "/tasks")
                        (<["retry_delay" := VInt 3]> (<["retry_backoff" := VInt 2]> ∅))
                        (fresh [server_error; too_many_requests (VInt 30);
                                server_error; server_error]))))
  = [VInt 3; VInt 30; VInt 6; VInt 12].
Proof. vm_compute. reflexivity. Qed.

(** The waits of the default configuration (delay 1.0, multiplier 2.0), by
    evaluation of [request] on five failures of the server: four retries
    out of the five allowed. *)
Example default_backoff_waits :
  sleeps (trace (snd (@Client.request taxonomy default_client "get" (VStr "/tasks") ∅
                        (fresh [server_error; server_error; server_error;
                                server_error]))))
  = [VFloat 1; VFloat 2; VFloat 4; VFloat 8].
Proof. vm_compute. reflexivity. Qed.

(** C6 A retry after a rate-limit error waits what the server reported and
    leaves the backoff where it was.  Within the loop, whatever the options
    and the state: the iteration sleeps [retry_after] and goes on with the
    delay it had.  Over a whole run: the rate-limit response adds its own
    wait to the waits of the run without it and changes none of them. *)
Theorem rate_limit_overrides_backoff `{ErrorModule} (r : response) :
  retried r = true → rate_limited r = true →
  (∀ (method url : string) (ro options : dict) (st : Client.retry_state)
     (fuel : nat) (rest : list response) (tr : list event),
     allows (Client.retries st) 1 = true →
     Client.loop (S fuel) method url ro options st
       {| server := r :: rest; trace := tr |}
     = Client.loop fuel method url ro options
         {| Client.retries := spent (Client.retries st) 1;
            Client.retry_delay := Client.retry_delay st |}
         {| server := rest;
            trace := tr ++ [Transport method url ro;
                            Sleep (retry_after_seconds r)] |})
  ∧ (∀ (self : Client.t) (method : string) (path : value) (options : dict)
       (url : string) (configured delay b : value) (ro : dict)
       (pre post : list response),
       resolves self options path url configured delay ro →
       Client._merge_options self [options] !! "retry_backoff" = Some b →
       multiplies delay b = true →
       Forall (λ r, retried r = true) (pre ++ post) →
       allows (initial_retries configured) (S (length (pre ++ post))) = true →
       ∃ before after,
         length before = length pre
         ∧ sleeps (trace (snd (Client.request self method path options
                                 (fresh (pre ++ post)))))
           = before ++ after
         ∧ sleeps (trace (snd (Client.request self method path options
                                 (fresh (pre ++ r :: post)))))
           = before ++ retry_after_seconds r :: after).
Proof.
  intros Hr Hlimit. split.
  - intros method url ro options st fuel rest tr Hbudget.
    destruct (retried_classified r Hr) as (Klass & Hc & Hretry & Hl).
    rewrite Hlimit in Hl. symmetry in Hl.
    cbn [allows] in Hbudget. cbn [spent].
    destruct (py_gt0 (Client.retries st)) as [[|]| | |] eqn:Hp; try discriminate.
    destruct (py_sub1 (Client.retries st)) as [retries'| | |] eqn:Hs; try discriminate.
    cbn [Client.loop]. unfold bind at 1.
    rewrite (iteration_retried method url ro options r rest tr st Klass Hc Hretry).
    unfold bind at 1.
    rewrite (handler_rate_limit options st Klass r retries' _ Hl Hp Hs).
    unfold ret; cbn [server trace]. rewrite <- app_assoc. reflexivity.
  - intros self method path options url configured delay b ro pre post
      Hres Hb Hmul Hall Hbudget.
    exists (schedule delay b pre), (schedule (delay_after delay b pre) b post).
    assert (Hall' : Forall (λ r, retried r = true) (pre ++ r :: post)).
    { apply Forall_app in Hall as [Hpre Hpost]. apply Forall_app. split; auto. }
    split; [apply schedule_length|]. split.
    + unfold fresh. rewrite <- (app_nil_r (pre ++ post)) at 1.
      rewrite (request_absorbs self method path options url configured delay ro Hres
                 b (pre ++ post) [] [] Hb Hmul Hall (allows_fewer _ _ Hbudget)).
      cbn [length Client.loop lift snd trace app].
      rewrite sleeps_retry_events. apply schedule_app.
    + unfold fresh. rewrite <- (app_nil_r (pre ++ r :: post)) at 1.
      rewrite (request_absorbs self method path options url configured delay ro Hres
                 b (pre ++ r :: post) [] [] Hb Hmul Hall').
      2:{ rewrite length_app in Hbudget |- *. cbn [length].
          rewrite Nat.add_succ_r. exact Hbudget. }
      cbn [length Client.loop lift snd trace app].
      rewrite sleeps_retry_events, schedule_app. cbn [schedule delay_after].
      rewrite Hlimit. reflexivity.
Qed.

Lemma rate_limit_overrides_backoff_witness :
  ∃ before after,
    length before = 1
    ∧ sleeps (trace (snd (@Client.request taxonomy default_client "get"
                            (VStr "/tasks") ∅
                            (fresh ([server_error] ++ [server_error]))))) 
      = before ++ after
    ∧ sleeps (trace (snd (@Client.request taxonomy default_client "get"
                            (VStr "/tasks") ∅
                            (fresh ([server_error]
                                    ++ too_many_requests (VInt 30)
                                       :: [server_error])))))
      = before ++ VInt 30 :: after.
Proof.
  exact (proj2 (@rate_limit_overrides_backoff taxonomy (too_many_requests (VInt 30))
                  ltac:(reflexivity) ltac:(reflexivity))
           default_client "get" (VStr "/tasks") ∅
           "https://app.asana.com/api/1.0/tasks" (VInt 5) (VFloat 1) (VFloat 2) ∅
           [server_error] [server_error]
           ltac:(split; vm_compute; reflexivity)
           ltac:(vm_compute; reflexivity)
           ltac:(reflexivity)
           ltac:(repeat constructor)
           ltac:(reflexivity)).
Defined.

(** ** What a computation leaves in the world *)

Lemma quiet_refl (w : world) : quiet w w.
Proof. split; [exists []; rewrite app_nil_r; auto | lia]. Qed.

Lemma quiet_trans (w1 w2 w3 : world) : quiet w1 w2 → quiet w2 w3 → quiet w1 w3.
Proof.
  intros [(e1 & H1 & G1) L1] [(e2 & H2 & G2) L2]. split; [|lia].
  exists (e1 ++ e2). rewrite H2, H1, app_assoc. split; [reflexivity|].
  unfold gets in *. rewrite omap_app, G1, G2. reflexivity.
Qed.

Lemma calm_ret {A} (a : A) : calm (ret a).
Proof. intros w. apply quiet_refl. Qed.

Lemma calm_lift {A} (c : outcome A) : calm (lift c).
Proof. intros w. apply quiet_refl. Qed.

Lemma calm_bind {A B} (c : M A) (k : A → M B) :
  calm c → (∀ a, calm (k a)) → calm (bind c k).
Proof.
  intros Hc Hk w. unfold bind. specialize (Hc w).
  destruct (c w) as [[a|e| |] w']; cbn [snd] in *; try exact Hc.
  eapply quiet_trans; [exact Hc|apply Hk].
Qed.

Lemma calm_sleep (seconds : value) : calm (Client.sleep seconds).
Proof.
  intros w. split; [|cbn; lia]. exists [Sleep seconds]. split; reflexivity.
Qed.

Lemma calm_transport (method url : string) (ro : dict) :
  calm (Client.transport method url ro).
Proof.
  intros w. unfold Client.transport. destruct (server w) as [|r rest] eqn:Hs.
  - apply quiet_refl.
  - split; [|cbn; rewrite Hs; cbn; lia].
    exists [Transport method url ro]. split; reflexivity.
Qed.

Lemma consuming_transport (method url : string) (ro : dict) :
  consuming (Client.transport method url ro).
Proof.
  intros w a w'. unfold Client.transport. destruct (server w) as [|r rest]; [discriminate|].
  intros [= _ <-]. cbn. lia.
Qed.

Lemma consuming_bind_l {A B} (c : M A) (k : A → M B) :
  consuming c → (∀ a, calm (k a)) → consuming (bind c k).
Proof.
  intros Hc Hk w b w'. unfold bind.
  destruct (c w) as [[a|e| |] w1] eqn:Hcw; try discriminate.
  intros Hkw. specialize (Hc w a w1 Hcw).
  pose proof (Hk a w1) as [_ Hle]. rewrite Hkw in Hle. cbn [snd] in Hle. lia.
Qed.

Lemma consuming_bind_r {A B} (c : M A) (k : A → M B) :
  calm c → (∀ a, consuming (k a)) → consuming (bind c k).
Proof.
  intros Hc Hk w b w'. unfold bind.
  pose proof (Hc w) as [_ Hle].
  destruct (c w) as [[a|e| |] w1] eqn:Hcw; try discriminate.
  intros Hkw. specialize (Hk a w1 b w' Hkw). cbn [snd] in Hle. lia.
Qed.

Section Footprint.
Context `{ErrorModule}.
Variables (method url : string) (ro options : dict).

Lemma calm_try_body : calm (Client.try_body method url ro options).
Proof.
  unfold Client.try_body. apply calm_bind; [apply calm_transport|]. intros r.
  destruct (STATUS_MAP !! Some (status_code r)); [apply calm_lift|].
  apply calm_bind; [apply calm_lift|]. intros full.
  apply calm_bind; [apply calm_lift|]. intros body.
  destruct (truthy full); [apply calm_ret|apply calm_lift].
Qed.

Lemma consuming_try_body : consuming (Client.try_body method url ro options).
Proof.
  unfold Client.try_body. apply consuming_bind_l; [apply consuming_transport|].
  intros r. destruct (STATUS_MAP !! Some (status_code r)); [apply calm_lift|].
  apply calm_bind; [apply calm_lift|]. intros full.
  apply calm_bind; [apply calm_lift|]. intros body.
  destruct (truthy full); [apply calm_ret|apply calm_lift].
Qed.

Lemma calm_handler (st : Client.retry_state) (e : exn) :
  calm (Client.handler options st e).
Proof.
  unfold Client.handler. apply calm_bind; [apply calm_lift|]. intros [|]; [|apply calm_lift].
  apply calm_bind; [apply calm_lift|]. intros retries'.
  destruct (Client.is_rate_limit e).
  - apply calm_bind; [apply calm_sleep|]. intros _. apply calm_ret.
  - apply calm_bind; [apply calm_sleep|]. intros _.
    apply calm_bind; [apply calm_lift|]. intros b.
    apply calm_bind; [apply calm_lift|]. intros d. apply calm_ret.
Qed.

Lemma calm_iteration (st : Client.retry_state) :
  calm (Client.iteration method url ro options st).
Proof.
  intros w. unfold Client.iteration. pose proof (calm_try_body w) as Hq.
  destruct (Client.try_body method url ro options w) as [[v|e| |] w1];
    cbn [snd] in *; try exact Hq.
  destruct (Client.is_retryable e); [|exact Hq].
  eapply quiet_trans; [exact Hq|].
  apply (calm_bind (Client.handler options st e) (λ st', ret (inr st'))).
  - apply calm_handler.
  - intros st'. apply calm_ret.
Qed.

Lemma consuming_iteration (st : Client.retry_state) :
  consuming (Client.iteration method url ro options st).
Proof.
  intros w a w'. unfold Client.iteration.
  pose proof (calm_try_body w) as [_ Hle].
  destruct (Client.try_body method url ro options w) as [[v|e| |] w1] eqn:Hb;
    cbn [snd] in Hle; try discriminate.
  - intros [= _ <-]. apply (consuming_try_body w v w1 Hb).
  - destruct (Client.is_retryable e); [|discriminate].
    intros Hh. destruct (server w) as [|r rest] eqn:Hs.
    + revert Hb. unfold Client.try_body, Client.transport, bind.
      rewrite Hs. discriminate.
    + assert (Hlt : length (server w1) < length (server w)).
      { revert Hb. unfold Client.try_body, Client.transport, bind. rewrite Hs.
        destruct (STATUS_MAP !! Some (status_code r)).
        - unfold lift. intros [= _ <-]. cbn. lia.
        - cbn [server trace]. unfold lift.
          destruct (getitem options "full_payload") as [full| | |]; try discriminate;
            [|intros [= _ <-]; cbn; lia].
          destruct (json r) as [body|]; [|intros [= _ <-]; cbn; lia].
          destruct (truthy full); unfold ret; [discriminate|].
          destruct (subscript body "data"); try discriminate.
          intros [= _ <-]; cbn; lia. }
      pose proof (calm_bind (Client.handler options st e)
                    (λ st', ret (@inr value Client.retry_state st'))
                    (calm_handler st e) (λ st', calm_ret _) w1) as [_ Hle'].
      rewrite Hh in Hle'. cbn [snd] in Hle'. rewrite Hs in *. lia.
Qed.

Lemma calm_loop (fuel : nat) :
  ∀ st, calm (Client.loop fuel method url ro options st).
Proof.
  induction fuel as [|fuel IH]; intros st; [apply calm_lift|].
  cbn [Client.loop]. apply calm_bind; [apply calm_iteration|].
  intros [v|st']; [apply calm_ret|apply IH].
Qed.

Lemma consuming_loop (fuel : nat) (st : Client.retry_state) :
  consuming (Client.loop fuel method url ro options st).
Proof.
  destruct fuel as [|fuel]; [intros w a w'; discriminate|].
  cbn [Client.loop]. apply consuming_bind_l; [apply consuming_iteration|].
  intros [v|st']; [apply calm_ret|apply calm_loop].
Qed.

End Footprint.

Section FootprintOfCalls.
Context `{ErrorModule}.
Variables (self : Client.t) (path : value) (options : dict).

Lemma calm_request (method : string) : calm (Client.request self method path options).
Proof.
  unfold Client.request.
  apply calm_bind; [apply calm_lift|]. intros base_url.
  apply calm_bind; [apply calm_lift|]. intros url.
  apply calm_bind; [apply calm_lift|]. intros configured.
  apply calm_bind; [apply calm_lift|]. intros retry_delay.
  apply calm_bind; [apply calm_lift|]. intros ro.
  intros w. apply calm_loop.
Qed.

Lemma consuming_request (method : string) :
  consuming (Client.request self method path options).
Proof.
  unfold Client.request.
  apply consuming_bind_r; [apply calm_lift|]. intros base_url.
  apply consuming_bind_r; [apply calm_lift|]. intros url.
  apply consuming_bind_r; [apply calm_lift|]. intros configured.
  apply consuming_bind_r; [apply calm_lift|]. intros retry_delay.
  apply consuming_bind_r; [apply calm_lift|]. intros ro.
  intros w. apply consuming_loop.
Qed.

End FootprintOfCalls.

Section FootprintOfGet.
Context `{ErrorModule}.
Variables (self : Client.t) (path : value) (query options : dict).

(** What [get] does after it is entered. *)
Lemma calm_get_body :
  calm (api_options <- lift (Client._parse_api_options self options true) ;;
        lift (bind_keywords ["self"; "method"; "path"; "params"] options) ;;;
        Client.request self "get" path
          (<["params" := VDict (_merge [Client._parse_query_options self options;
                                         api_options; query])]> options)).
Proof.
  apply calm_bind; [apply calm_lift|]. intros api.
  apply calm_bind; [apply calm_lift|]. intros _. apply calm_request.
Qed.

(** One call of [get] is one [Get] event, the first of what the call adds
    to the trace. *)
Lemma get_footprint (w : world) :
  (∃ evs, trace (snd (Client.get self path query options w))
          = trace w ++ Get path query options :: evs
          ∧ gets evs = [])
  ∧ length (server (snd (Client.get self path query options w))) ≤ length (server w).
Proof.
  unfold Client.get. unfold bind at 1. unfold log at 1.
  match goal with |- context [snd (?c ?w1)] =>
    pose proof (calm_get_body w1) as [(evs & Ht & Hg) Hle];
    change (snd (c w1)) with
      (snd ((api_options <- lift (Client._parse_api_options self options true) ;;
             lift (bind_keywords ["self"; "method"; "path"; "params"] options) ;;;
             Client.request self "get" path
               (<["params" := VDict (_merge [Client._parse_query_options self options;
                                              api_options; query])]> options)) w1))
  end.
  split; [|exact Hle].
  exists evs. rewrite Ht. cbn [trace]. rewrite <- app_assoc. auto.
Qed.

Lemma consuming_get : consuming (Client.get self path query options).
Proof.
  intros w a w'. unfold Client.get. unfold bind at 1. unfold log at 1.
  intros Hget. eapply Nat.lt_le_trans.
  - revert Hget. apply consuming_bind_r; [apply calm_lift|]. intros api.
    apply consuming_bind_r; [apply calm_lift|]. intros _. apply consuming_request.
  - cbn. lia.
Qed.

End FootprintOfGet.

(** ** The page iterator *)

Lemma exhausted_step `{ErrorModule} (self : _PageIterator.t) (w : world) :
  _PageIterator.next_page self = VNone →
  _PageIterator.__next__ self w = (Raise StopIteration, self, w).
Proof. intros Hn. unfold _PageIterator.__next__. rewrite Hn. reflexivity. Qed.

Lemma exhausted_steps `{ErrorModule} (self : _PageIterator.t) :
  _PageIterator.next_page self = VNone →
  ∀ (n : nat) (w : world), steps n self w = (replicate n (Raise StopIteration), self, w).
Proof.
  intros Hn n. induction n as [|n IH]; intros w; [reflexivity|].
  cbn [steps]. rewrite (exhausted_step self w Hn), IH. reflexivity.
Qed.

(** C7 Exhaustion of a page iterator is absorbing and idempotent.  When
    the envelope a step fetched has no [next_page], the step returns the
    data of the envelope and leaves the cursor at [None]; from then on
    every step, however many, raises [StopIteration] and leaves the
    iterator and the world (server and trace: no request is issued) as
    they were.  A new iterator starts from the cursor [False], which is
    not [None]: its step passes the test for exhaustion and takes the
    branch of the first request. *)
Theorem page_iterator_exhaustion `{ErrorModule} (self self0 : _PageIterator.t)
    (w w1 : world) (entries : dict) :
  _PageIterator.next_page self ≠ VNone →
  _PageIterator.fetch self w = (Ok (VDict entries), self0, w1) →
  absent entries "next_page" →
  ∃ self1,
    _PageIterator.__next__ self w = (getitem entries "data", self1, w1)
    ∧ _PageIterator.next_page self1 = VNone
    ∧ (∀ (n : nat) (w' : world),
         steps n self1 w' = (replicate n (Raise StopIteration), self1, w'))
    ∧ (∀ client path query options,
         let start := _PageIterator.__init__ client path query options in
         _PageIterator.next_page start = VBool false
         ∧ _PageIterator.next_page start ≠ _PageIterator.next_page self1
         ∧ negb (eq_None (_PageIterator.next_page start)) = true
         ∧ eq_False (_PageIterator.next_page start) = true).
Proof.
  intros Hlive Hfetch Habsent.
  exists (_PageIterator.set_next_page self0 VNone).
  assert (Hstep : _PageIterator.__next__ self w
                  = (getitem entries "data",
                     _PageIterator.set_next_page self0 VNone, w1)).
  { unfold _PageIterator.__next__.
    destruct (_PageIterator.next_page self) eqn:Hn; try contradiction;
      cbn [eq_None negb]; rewrite Hfetch; cbn [_PageIterator.store_and_return];
      destruct Habsent as [-> | ->]; reflexivity. }
  split; [exact Hstep|]. split; [reflexivity|]. split.
  - apply exhausted_steps. reflexivity.
  - intros client path query options. cbn zeta.
    split; [reflexivity|]. split; [discriminate|]. split; reflexivity.
Qed.

Lemma page_iterator_exhaustion_witness :
  ∃ self1 w1,
    @_PageIterator.__next__ taxonomy tasks_from_offset (fresh one_page)
    = (Ok (VList [VStr "t1"]), self1, w1)
    ∧ ∀ (n : nat) (w' : world),
        @steps taxonomy n self1 w'
        = (replicate n (Raise StopIteration), self1, w').
Proof.
  destruct (@page_iterator_exhaustion taxonomy tasks_from_offset
              (snd (fst (@_PageIterator.fetch taxonomy tasks_from_offset
                           (fresh one_page))))
              (fresh one_page)
              (snd (@_PageIterator.fetch taxonomy tasks_from_offset (fresh one_page)))
              (<["data" := VList [VStr "t1"]]> (<["next_page" := VNone]> ∅)))
    as (self1 & Hstep & _ & Hsteps & _).
  - discriminate.
  - vm_compute. reflexivity.
  - right. vm_compute. reflexivity.
  - exists self1, (snd (@_PageIterator.fetch taxonomy tasks_from_offset
                          (fresh one_page))).
    split; [exact Hstep|exact Hsteps].
Defined.

(** What a step that fetches does: it is the call of [get] with the
    iterator as [fetch] left it. *)
Lemma step_fetches `{ErrorModule} (self : _PageIterator.t) (w : world) :
  _PageIterator.next_page self ≠ VNone →
  snd (_PageIterator.__next__ self w) = snd (_PageIterator.fetch self w)
  ∧ _PageIterator.options (snd (fst (_PageIterator.__next__ self w)))
    = _PageIterator.options (snd (fst (_PageIterator.fetch self w))).
Proof.
  intros Hlive. unfold _PageIterator.__next__.
  replace (negb (eq_None (_PageIterator.next_page self))) with true
    by (destruct (_PageIterator.next_page self); try reflexivity; contradiction).
  destruct (_PageIterator.fetch self w) as [[[result|e| |] it] w']; cbn; auto.
  destruct result; cbn; auto.
Qed.

(** The call of [get] a step with a live cursor makes. *)
Lemma cursor_fetch `{ErrorModule} (self : _PageIterator.t) (cur : dict) (p : value)
    (w : world) :
  _PageIterator.next_page self = VDict cur →
  cur !! "path" = Some p →
  bind_keywords ["self"; "path"; "query"]
    (delete "offset" (_PageIterator.options self)) = Ok tt →
  _PageIterator.fetch self w
  = (let '(r, w') :=
       Client.get (_PageIterator.client self) p ∅
         (delete "offset" (_PageIterator.options self)) w in
     (r, _PageIterator.set_options self
           (delete "offset" (_PageIterator.options self)), w')).
Proof.
  intros Hcur Hp Hbind.
  unfold _PageIterator.fetch. rewrite Hcur. cbn [eq_False as_number].
  cbn [_PageIterator.set_options _PageIterator.next_page _PageIterator.options
       _PageIterator.client].
  rewrite Hcur. cbn [subscript]. unfold getitem. rewrite Hp.
  unfold bind at 1. unfold lift at 1. unfold bind at 1.
  rewrite Hbind. unfold lift at 1. reflexivity.
Qed.

(** The call of [get] the first step makes. *)
Lemma first_fetch `{ErrorModule} (self : _PageIterator.t) (w : world) :
  _PageIterator.next_page self = VBool false →
  bind_keywords ["self"; "path"; "query"] (_PageIterator.options self) = Ok tt →
  _PageIterator.fetch self w
  = (let '(r, w') :=
       Client.get (_PageIterator.client self) (_PageIterator.path self)
         (_PageIterator.query self) (_PageIterator.options self) w in
     (r, self, w')).
Proof.
  intros Hstart Hbind.
  unfold _PageIterator.fetch. rewrite Hstart. cbn [eq_False as_number Z.b2z Z.eqb].
  unfold bind at 1. rewrite Hbind. unfold lift at 1. reflexivity.
Qed.

(** The two requests of the iterator built with [offset = 'A'], as [get]
    receives them and as the transport sends them: the second one follows
    the cursor and carries no [offset]. *)
Example offset_dropped_after_first_page :
  let w := snd (@steps taxonomy 2 tasks_from_offset (fresh two_pages)) in
  (λ c, (c.1.1, c.1.2, c.2 !! "offset")) <$> gets (trace w)
  = [ (VStr "/tasks", ∅, Some (VStr "A"));
      (VStr "/tasks?offset=X", ∅, None) ]
  ∧ (λ call, match call.2 !! "params" with
             | Some (VDict q) => (call.1.2, q !! "offset")
             | _ => (call.1.2, None)
             end) <$> transports (trace w)
    = [ ("https://app.asana.com/api/1.0/tasks", Some (VStr "A"));
        ("https://app.asana.com/api/1.0/tasks?offset=X", None) ].
Proof. vm_compute. split; reflexivity. Qed.

(** The options the iterator carries are one tier; [get] merges the
    options of the client under them again.  An [offset] given to the
    constructor of the client is therefore still sent after the iterator
    has dropped its own. *)
Example client_offset_is_merged_again :
  let client := Client.__init__ (<["offset" := VStr "A"]> ∅) in
  let pages :=
    _get_page_iterator client (VStr "/tasks") ∅ (Client._merge_options client []) in
  let w := snd (@steps taxonomy 2 pages (fresh two_pages)) in
  (λ c, c.2 !! "offset") <$> gets (trace w) = [Some (VStr "A"); None]
  ∧ (λ call, match call.2 !! "params" with
             | Some (VDict q) => q !! "offset"
             | _ => None
             end) <$> transports (trace w)
    = [Some (VStr "A"); Some (VStr "A")].
Proof. vm_compute. split; reflexivity. Qed.

(** ** [get_collection] *)

Lemma bind_ok {A B} (a : A) (k : A → M B) (w : world) :
  bind (lift (Ok a)) k w = k a w.
Proof. reflexivity. Qed.

Lemma eq_str_false (v : value) (s : string) : v ≠ VStr s → eq_str v s = false.
Proof.
  intros Hne. destruct v; try reflexivity. cbn.
  apply bool_decide_eq_false. congruence.
Qed.

Lemma eq_str_true (s : string) : eq_str (VStr s) s = true.
Proof. cbn. apply bool_decide_eq_true. reflexivity. Qed.

Lemma eq_None_false (v : value) : v ≠ VNone → eq_None v = false.
Proof. intros Hne. destruct v; try reflexivity. contradiction. Qed.

(** C10 [get_collection] chooses by the resolved [iterator_type]:
    ['pages'] gives a page iterator, ['items'] the item generator, [None] a
    direct [get]; any other value ends in [NameError], the name [Error]
    being undefined, and not in an error of the taxonomy. *)
Theorem get_collection_dispatch `{ErrorModule} (self : Client.t) (path : value)
    (query options : dict) (iterator_type : value) (w : world) :
  Client._merge_options self [options] !! "iterator_type" = Some iterator_type →
  let resolved := Client._merge_options self [options] in
  (iterator_type = VStr "pages" →
   bind_keywords ["self"; "path"; "query"] resolved = Ok tt →
   get_collection self path query options w
   = (Ok (Pages (_PageIterator.__init__ self path query resolved)), w))
  ∧ (iterator_type = VStr "items" →
     bind_keywords ["self"; "path"; "query"] resolved = Ok tt →
     get_collection self path query options w
     = (Ok (Items (_get_item_iterator self path query resolved)), w))
  ∧ (iterator_type = VNone →
     bind_keywords ["self"; "path"; "query"] resolved = Ok tt →
     get_collection self path query options w
     = (let '(r, w') := Client.get self path query resolved w in (Data <$$> r, w')))
  ∧ (iterator_type ≠ VStr "pages" → iterator_type ≠ VStr "items" →
     iterator_type ≠ VNone →
     get_collection self path query options w = (Raise (NameError "Error"), w)
     ∧ ∀ Klass r, NameError "Error" ≠ AsanaError Klass r).
Proof.
  intros Hit resolved. unfold get_collection, getitem. fold resolved in Hit |- *.
  rewrite Hit, bind_ok.
  split; [|split; [|split]].
  - intros -> Hbind. rewrite eq_str_true, Hbind. reflexivity.
  - intros -> Hbind. rewrite eq_str_false by discriminate.
    rewrite eq_str_true, Hbind. reflexivity.
  - intros -> Hbind. cbn [eq_str eq_None]. rewrite Hbind, bind_ok.
    unfold bind at 1.
    destruct (Client.get self path query resolved w) as [[v|e| |] w']; reflexivity.
  - intros Hp Hi Hn. rewrite (eq_str_false _ _ Hp), (eq_str_false _ _ Hi),
      (eq_None_false _ Hn). split; [reflexivity|discriminate].
Qed.

Lemma get_collection_dispatch_witness :
  @get_collection taxonomy default_client (VStr "/tasks") ∅
    unknown_iterator_type (fresh two_pages)
  = (Raise (NameError "Error"), fresh two_pages).
Proof.
  exact (proj1 (proj2 (proj2 (proj2
           (@get_collection_dispatch taxonomy default_client (VStr "/tasks") ∅
              unknown_iterator_type (VStr "batches")
              (fresh two_pages) ltac:(vm_compute; reflexivity))))
           ltac:(discriminate) ltac:(discriminate) ltac:(discriminate))).
Defined.

(** ** The item iterator *)

Section Items.
Context `{ErrorModule}.

Lemma fetch_consumes (self self' : _PageIterator.t) (w w' : world) (result : value) :
  _PageIterator.fetch self w = (Ok result, self', w') →
  length (server w') < length (server w).
Proof.
  unfold _PageIterator.fetch. destruct (eq_False (_PageIterator.next_page self)).
  - destruct ((lift _ ;;; Client.get _ _ _ _) w) as [r w1] eqn:Hc.
    intros Heq. inversion Heq; subst. revert Hc.
    apply consuming_bind_r; [apply calm_lift|]. intros _. apply consuming_get.
  - destruct ((cursor_path <- lift _ ;; _) w) as [r w1] eqn:Hc.
    intros Heq. inversion Heq; subst. revert Hc.
    apply consuming_bind_r; [apply calm_lift|]. intros p.
    apply consuming_bind_r; [apply calm_lift|]. intros _. apply consuming_get.
Qed.

(** A step that returns a page has taken a response. *)
Lemma next_consumes (self self' : _PageIterator.t) (w w' : world) (page : value) :
  _PageIterator.__next__ self w = (Ok page, self', w') →
  length (server w') < length (server w).
Proof.
  unfold _PageIterator.__next__.
  destruct (negb (eq_None (_PageIterator.next_page self))); [|discriminate].
  destruct (_PageIterator.fetch self w) as [[[result|e| |] it] w1] eqn:Hf;
    try discriminate.
  intros Heq. inversion Heq; subst. apply (fetch_consumes self it w w' result Hf).
Qed.

Lemma page_run_bound (it : _PageIterator.t) (w w' : world) (pages : list (list value)) :
  page_run it w pages w' → length pages ≤ length (server w).
Proof.
  induction 1 as [it it' w w' Hend | it it1 w w1 w' page pages Hnext Hrun IH].
  - cbn. lia.
  - apply next_consumes in Hnext. cbn [length]. lia.
Qed.

(** Resuming the generator at the end of a page: it stops with the page
    iterator, or it yields the first item still to come and is suspended
    inside the page that holds it. *)
Lemma resume_first (pep479 : bool) (it : _PageIterator.t) (w w' : world)
    (pages : list (list value)) :
  page_run it w pages w' →
  ∀ fuel, length pages < fuel →
  (concat pages = []
   ∧ resume pep479 fuel it [] w
     = (Raise (if pep479 then RuntimeError else StopIteration), Finished, w'))
  ∨ (∃ x xs itk wk rest later,
       concat pages = x :: xs
       ∧ resume pep479 fuel it [] w = (Ok x, Suspended itk rest, wk)
       ∧ xs = rest ++ concat later
       ∧ page_run itk wk later w').
Proof.
  induction 1 as [it it' w w' Hend | it it1 w w1 w' page pages Hnext Hrun IH];
    intros fuel Hfuel.
  - destruct fuel as [|fuel]; [cbn in Hfuel; lia|].
    left. split; [reflexivity|]. cbn [resume]. rewrite Hend. reflexivity.
  - destruct fuel as [|fuel]; [cbn in Hfuel; lia|].
    cbn [resume]. rewrite Hnext. cbn [iterate].
    destruct page as [|x page].
    + cbn [concat app]. apply IH. cbn [length] in Hfuel. lia.
    + right. exists x, (page ++ concat pages), it1, w1, page, pages.
      split; [reflexivity|]. split; [|split; [reflexivity|exact Hrun]].
      destruct fuel; reflexivity.
Qed.

Lemma consume_run (pep479 : bool) (fuel : nat) :
  ∀ (it : _PageIterator.t) (w w' : world) (rest : list value)
    (pages : list (list value)),
  page_run it w pages w' →
  length (rest ++ concat pages) < fuel →
  consume pep479 fuel (Suspended it rest) w
  = (rest ++ concat pages, end_of_items pep479, w').
Proof.
  induction fuel as [|fuel IH]; intros it w w' rest pages Hrun Hfuel; [lia|].
  cbn [consume generator_next]. destruct rest as [|x rest].
  - pose proof (page_run_bound it w w' pages Hrun) as Hbound.
    destruct (resume_first pep479 it w w' pages Hrun (S (length (server w))))
      as [[Hnil ->] | (x & xs & itk & wk & rest & later & Hcat & -> & -> & Hlater)];
      [lia| |].
    + cbn [app]. rewrite Hnil. unfold end_of_items. destruct pep479; reflexivity.
    + cbn [app] in Hfuel |- *. rewrite Hcat in Hfuel |- *. cbn [length] in Hfuel.
      rewrite (IH itk wk w' rest later Hlater) by lia. reflexivity.
  - assert (Hres : resume pep479 (S (length (server w))) it (x :: rest) w
                   = (Ok x, Suspended it rest, w)) by reflexivity.
    rewrite Hres. cbn [app length] in Hfuel.
    rewrite (IH it w w' rest pages Hrun) by lia. reflexivity.
Qed.

(** The items a consumer gets are the pages of the page iterator, one
    after the other, each in its order; the iteration then ends as the
    statement [raise StopIteration] of the generator body ends it. *)
Lemma item_iterator_flattens (pep479 : bool) (self : Client.t) (path : value)
    (query options : dict) (pages : list (list value)) (w w' : world) (fuel : nat) :
  page_run (_get_page_iterator self path query options) w pages w' →
  length (concat pages) < fuel →
  consume pep479 fuel (_get_item_iterator self path query options) w
  = (concat pages, end_of_items pep479, w').
Proof.
  intros Hrun Hfuel.
  transitivity (consume pep479 fuel
                  (Suspended (_get_page_iterator self path query options) []) w).
  - destruct fuel; reflexivity.
  - exact (consume_run pep479 fuel _ w w' [] pages Hrun Hfuel).
Qed.

End Items.

(** C9, where the code departs from it.  The items come as claimed, the
    concatenation in order of the pages the page iterator produces, with
    nothing added.  The end does not: once the page iterator is exhausted
    the generator body executes [raise StopIteration], which from Python
    3.7 on (PEP 479) reaches the consumer as [RuntimeError] instead of
    ending the iteration. *)
Theorem item_iterator_ends_in_error `{ErrorModule} (self : Client.t) (path : value)
    (query options : dict) (pages : list (list value)) (w w' : world) (fuel : nat) :
  page_run (_get_page_iterator self path query options) w pages w' →
  length (concat pages) < fuel →
  consume true fuel (_get_item_iterator self path query options) w
  = (concat pages, Failed RuntimeError, w').
Proof.
  intros Hrun Hfuel.
  apply (item_iterator_flattens true self path query options pages w w' fuel Hrun Hfuel).
Qed.

Lemma item_iterator_ends_in_error_witness :
  ∃ w',
    @consume taxonomy true 4
      (_get_item_iterator default_client (VStr "/tasks") ∅ ∅) (fresh two_pages)
    = ([VStr "t1"; VStr "t2"; VStr "t3"], Failed RuntimeError, w').
Proof.
  eexists.
  apply (@item_iterator_ends_in_error taxonomy default_client (VStr "/tasks") ∅ ∅
           [[VStr "t1"; VStr "t2"]; [VStr "t3"]] (fresh two_pages)).
  - eapply run_page; [vm_compute; reflexivity|].
    eapply run_page; [vm_compute; reflexivity|].
    eapply run_end. vm_compute. reflexivity.
  - cbn. lia.
Defined.

(** Before PEP 479 the same statement ended the generator: the claim held
    on those interpreters. *)
Corollary item_iterator_ended_normally `{ErrorModule} (self : Client.t) (path : value)
    (query options : dict) (pages : list (list value)) (w w' : world) (fuel : nat) :
  page_run (_get_page_iterator self path query options) w pages w' →
  length (concat pages) < fuel →
  consume false fuel (_get_item_iterator self path query options) w
  = (concat pages, Exhausted, w').
Proof.
  intros Hrun Hfuel.
  apply (item_iterator_flattens false self path query options pages w w' fuel Hrun Hfuel).
Qed.

(** * Further properties of the code *)

(** ** The status map *)

Lemma foldl_insert_lookup (classes : list error_class) :
  ∀ (m : gmap (option Z) error_class) (key : option Z),
  foldl (λ m Klass, <[status Klass := Klass]> m) m classes !! key
  = match last (filter (λ Klass, status Klass = key) classes) with
    | Some Klass => Some Klass
    | None => m !! key
    end.
Proof.
  induction classes as [|Klass classes IH] using rev_ind; intros m key.
  - reflexivity.
  - rewrite foldl_app, filter_app, filter_cons, filter_nil. cbn [foldl].
    case_decide as Hk.
    + rewrite last_snoc. subst key. apply lookup_insert_eq.
    + rewrite app_nil_r, lookup_insert_ne by exact Hk. apply IH.
Qed.

(** X1 [STATUS_MAP] holds, for a status, the last class of the module
    [error] whose instances carry it: a class defined later replaces an
    earlier one with the same status, and a status no class carries is not
    in the map. *)
Theorem status_map_last_class `{ErrorModule} (key : option Z) :
  STATUS_MAP !! key = last (filter (λ Klass, status Klass = key) error__dict__).
Proof.
  unfold STATUS_MAP. rewrite foldl_insert_lookup, lookup_empty.
  destruct (last _); reflexivity.
Qed.

(** ** The option tiers *)

(** X2 A client built by the constructor resolves every key of [DEFAULTS],
    whatever options the constructor and the call are given: the lookups
    of [request] and [get_collection] ([base_url], [retries], [retry_delay],
    [retry_backoff], [full_payload], [iterator_type]) cannot raise
    [KeyError].  The value is the one of the call if it names the key, else
    the one of the constructor, else the default. *)
Theorem defaults_always_resolve (C Q : dict) (key : string) (v : value) :
  Client.DEFAULTS !! key = Some v →
  Client._merge_options (Client.__init__ C) [Q] !! key
  = Some (default (default v (C !! key)) (Q !! key))
  ∧ ∃ v', getitem (Client._merge_options (Client.__init__ C) [Q]) key = Ok v'.
Proof.
  intros Hd.
  assert (Hl : Client._merge_options (Client.__init__ C) [Q] !! key
               = Some (default (default v (C !! key)) (Q !! key))).
  { unfold Client._merge_options, Client.__init__, _merge, update; simpl.
    rewrite !lookup_union, lookup_empty, Hd.
    destruct (Q !! key), (C !! key); reflexivity. }
  split; [exact Hl|]. unfold getitem. rewrite Hl. eauto.
Qed.

Lemma defaults_always_resolve_witness :
  Client._merge_options (Client.__init__ {["retries" := VInt 2]})
    [{["limit" := VInt 10]}] !! "retries"
  = Some (VInt 2).
Proof.
  exact (proj1 (defaults_always_resolve {["retries" := VInt 2]}
                  {["limit" := VInt 10]} "retries" (VInt 5)
                  ltac:(vm_compute; reflexivity))).
Defined.

Lemma select_lookup (resolved : dict) (keys : list string) (key : string) :
  (list_to_map (omap (λ k, (λ v, (k, v)) <$> resolved !! k) keys) : dict) !! key
  = if bool_decide (key ∈ keys) then resolved !! key else None.
Proof.
  induction keys as [|k keys IH].
  - rewrite bool_decide_eq_false_2 by apply not_elem_of_nil. reflexivity.
  - cbn [omap list_omap]. destruct (decide (key = k)) as [->|Hne].
    + rewrite bool_decide_eq_true_2 by apply list_elem_of_here.
      destruct (resolved !! k) as [v|] eqn:Hk; cbn.
      * apply lookup_insert_eq.
      * rewrite IH. destruct (bool_decide (k ∈ keys)); reflexivity.
    + assert (Hin : bool_decide (key ∈ k :: keys) = bool_decide (key ∈ keys)).
      { apply bool_decide_ext. rewrite elem_of_cons. tauto. }
      rewrite Hin.
      destruct (resolved !! k) as [v|]; cbn; [|exact IH].
      rewrite lookup_insert_ne by congruence. exact IH.
Qed.

(** X3 [_select_options] restricts the resolved options to the keys asked
    for: a key asked for has the value the merge of the client's options
    and the call's gives it, if any; no other key is selected. *)
Theorem select_options_restricts (self : Client.t) (options : dict)
    (keys : list string) (key : string) :
  Client._select_options self options keys !! key
  = if bool_decide (key ∈ keys)
    then Client._merge_options self [options] !! key
    else None.
Proof. unfold Client._select_options. apply select_lookup. Qed.

(** ** Joining and the API options *)

Lemma join_strs (strs : list string) :
  Client.join (VStr <$> strs) = Ok (String.concat "," strs).
Proof.
  induction strs as [|s strs IH]; [reflexivity|].
  destruct strs as [|s' strs]; [reflexivity|].
  change (Client.join (VStr <$> s :: s' :: strs))
    with (r <-! Client.join (VStr <$> s' :: strs) ;; Ok (s +:+ "," +:+ r)).
  rewrite IH. reflexivity.
Qed.

Lemma join_outcome (items : list value) :
  (∃ strs, items = VStr <$> strs ∧ Client.join items = Ok (String.concat "," strs))
  ∨ ((∀ strs, items ≠ VStr <$> strs) ∧ Client.join items = Raise TypeError).
Proof.
  induction items as [|v items IH].
  - left. exists []. split; reflexivity.
  - destruct v as [| | | |s| |];
      try (right; split; [intros [|? ?]; discriminate|reflexivity]).
    destruct IH as [(strs & -> & Hj) | [Hno Hj]].
    + left. exists (s :: strs). split; [reflexivity|]. apply (join_strs (s :: strs)).
    + right. split.
      * intros [|s0 strs] Heq; [discriminate|]. injection Heq as _ Heq.
        exact (Hno strs Heq).
      * destruct items as [|v' items]; [exfalso; apply (Hno []); reflexivity|].
        change (Client.join (VStr s :: v' :: items))
          with (r <-! Client.join (v' :: items) ;; Ok (s +:+ "," +:+ r)).
        rewrite Hj. reflexivity.
Qed.

(** X4 [join], the comma join of the API options: a list of strings gives
    the strings separated by commas (the empty string for no string, the
    string itself for one); a list with an item that is not a string is a
    [TypeError]; there is no other outcome. *)
Theorem join_is_comma_separated (items : list value) :
  (∀ strs, items = VStr <$> strs →
           Client.join items = Ok (String.concat "," strs))
  ∧ ((∀ strs, items ≠ VStr <$> strs) → Client.join items = Raise TypeError)
  ∧ (∀ s, Client.join items = Ok s →
          ∃ strs, items = VStr <$> strs ∧ s = String.concat "," strs).
Proof.
  split; [|split].
  - intros strs ->. apply join_strs.
  - intros Hno. destruct (join_outcome items) as [(strs & Heq & _) | [_ Hj]];
      [destruct (Hno strs Heq)|exact Hj].
  - intros s Hs. destruct (join_outcome items) as [(strs & Heq & Hj) | [_ Hj]].
    + exists strs. split; [exact Heq|]. congruence.
    + congruence.
Qed.

Lemma join_is_comma_separated_witness :
  Client.join [VStr "name"; VStr "notes"] = Ok "name,notes".
Proof.
  exact (proj1 (join_is_comma_separated [VStr "name"; VStr "notes"])
           ["name"; "notes"] eq_refl).
Defined.

Lemma api_options_fold (api : dict) :
  foldr (λ key acc,
           query_api_options <-! acc ;;
           match api !! key with
           | None => Ok query_api_options
           | Some (VList items) =>
               joined <-! Client.join items ;;
               Ok (<["opt_" +:+ key := VStr joined]> query_api_options)
           | Some v => Ok (<["opt_" +:+ key := v]> query_api_options)
           end)
        (Ok (∅ : dict)) ["pretty"; "fields"; "expand"]
  = (expand <-! query_form (api !! "expand") ;;
     fields <-! query_form (api !! "fields") ;;
     pretty <-! query_form (api !! "pretty") ;;
     Ok (put_entry "opt_pretty" pretty
           (put_entry "opt_fields" fields (put_entry "opt_expand" expand ∅)))).
Proof.
  cbn [foldr rbind]. unfold query_form.
  destruct (api !! "expand") as [[| | | | |items|]|]; cbn;
    try destruct (Client.join items); cbn; try reflexivity;
    destruct (api !! "fields") as [[| | | | |items'|]|]; cbn;
    try destruct (Client.join items'); cbn; try reflexivity;
    destruct (api !! "pretty") as [[| | | | |items''|]|]; cbn;
    try destruct (Client.join items''); cbn; reflexivity.
Qed.

Lemma query_form_ok (entry o : option value) :
  query_form entry = Ok o →
  match entry with
  | None => o = None
  | Some (VList items) =>
      ∃ strs, items = VStr <$> strs ∧ o = Some (VStr (String.concat "," strs))
  | Some v => o = Some v
  end.
Proof.
  unfold query_form. destruct entry as [[| | | | |items|]|];
    try (intros [= <-]; reflexivity).
  destruct (join_outcome items) as [(strs & Heq & Hj) | [_ Hj]]; rewrite Hj; cbn.
  - intros [= <-]. eauto.
  - discriminate.
Qed.

(** X5 The API options in query-string form.  When [_parse_api_options]
    succeeds, each of [pretty], [fields], [expand] the resolved options hold
    appears under its name prefixed by [opt_], a list of strings as its
    comma join and any other value as it is; an option the resolved options
    do not hold does not appear; and nothing else appears. *)
Theorem api_options_are_prefixed (self : Client.t) (options q : dict) :
  Client._parse_api_options self options true = Ok q →
  (∀ key, key ∈ ["pretty"; "fields"; "expand"] →
     match Client._merge_options self [options] !! key with
     | None => q !! ("opt_" +:+ key) = None
     | Some (VList items) =>
         ∃ strs, items = VStr <$> strs
                 ∧ q !! ("opt_" +:+ key) = Some (VStr (String.concat "," strs))
     | Some v => q !! ("opt_" +:+ key) = Some v
     end)
  ∧ (∀ k, is_Some (q !! k) → k ∈ ["opt_pretty"; "opt_fields"; "opt_expand"]).
Proof.
  unfold Client._parse_api_options. rewrite api_options_fold.
  unfold Client._select_options. rewrite !select_lookup.
  rewrite !bool_decide_eq_true_2 by (repeat constructor).
  set (resolved := Client._merge_options self [options]).
  intros Hq.
  destruct (query_form (resolved !! "expand")) as [expand| | |] eqn:He;
    try discriminate.
  destruct (query_form (resolved !! "fields")) as [fields| | |] eqn:Hf;
    try discriminate.
  destruct (query_form (resolved !! "pretty")) as [pretty| | |] eqn:Hp;
    try discriminate.
  cbn [rbind] in Hq. injection Hq as <-.
  pose proof (query_form_ok _ _ He) as Hexpand.
  pose proof (query_form_ok _ _ Hf) as Hfields.
  pose proof (query_form_ok _ _ Hp) as Hpretty.
  clear He Hf Hp. split.
  - intros key Hkey.
    assert (Hcases : key = "pretty" ∨ key = "fields" ∨ key = "expand").
    { rewrite !elem_of_cons in Hkey. rewrite elem_of_nil in Hkey. tauto. }
    destruct Hcases as [-> | [-> | ->]].
    + destruct (resolved !! "pretty") as [[| | | | |items|]|];
        try destruct Hpretty as (strs & -> & Hpretty); subst pretty;
        try (eexists; split; [reflexivity|]);
        destruct fields, expand; cbn; reflexivity.
    + destruct (resolved !! "fields") as [[| | | | |items|]|];
        try destruct Hfields as (strs & -> & Hfields); subst fields;
        try (eexists; split; [reflexivity|]);
        destruct pretty, expand; cbn; reflexivity.
    + destruct (resolved !! "expand") as [[| | | | |items|]|];
        try destruct Hexpand as (strs & -> & Hexpand); subst expand;
        try (eexists; split; [reflexivity|]);
        destruct pretty, fields; cbn; reflexivity.
  - intros k [v Hk].
    destruct (decide (k = "opt_pretty")) as [->|H1]; [repeat constructor|].
    destruct (decide (k = "opt_fields")) as [->|H2]; [repeat constructor|].
    destruct (decide (k = "opt_expand")) as [->|H3]; [repeat constructor|].
    exfalso. destruct pretty, fields, expand; cbn [put_entry] in Hk;
      rewrite ?lookup_insert_ne in Hk by congruence;
      rewrite lookup_empty in Hk; discriminate.
Qed.

(** ** The shape of a request *)

Section Effect.
Context `{ErrorModule}.
Variables (method url : string) (ro options : dict).

Lemma try_body_effect (w : world) (r : response) (rest : list response) :
  server w = r :: rest →
  ∃ o, Client.try_body method url ro options w
       = (o, {| server := rest; trace := trace w ++ [Transport method url ro] |}).
Proof.
  intros Hs. unfold Client.try_body, Client.transport. unfold bind at 1.
  rewrite Hs. destruct (STATUS_MAP !! Some (status_code r)); [eexists; reflexivity|].
  unfold bind, lift, ret.
  destruct (getitem options "full_payload"); try (eexists; reflexivity).
  destruct (json r); try (eexists; reflexivity).
  destruct (truthy a); eexists; reflexivity.
Qed.

Lemma handler_effect (st : Client.retry_state) (e : exn) (w : world) :
  ∃ o sl,
    Client.handler options st e w
    = (o, {| server := server w; trace := trace w ++ sl |})
    ∧ (sl = [] ∨ ∃ s, sl = [Sleep s])
    ∧ (∀ st', o = Ok st' → ∃ s, sl = [Sleep s]).
Proof.
  assert (Hw : w = {| server := server w; trace := trace w ++ [] |})
    by (rewrite app_nil_r; destruct w; reflexivity).
  unfold Client.handler, Client.sleep, log, bind, lift, ret.
  destruct (py_gt0 (Client.retries st)) as [[|]| | |];
    try (exists (Raise e), []; rewrite <- Hw; repeat split; auto; discriminate);
    try (eexists _, []; rewrite <- Hw; split; [reflexivity|];
         split; [auto|discriminate]).
  destruct (py_sub1 (Client.retries st)) as [retries'| | |];
    try (eexists _, []; rewrite <- Hw; split; [reflexivity|];
         split; [auto|discriminate]).
  destruct (Client.is_rate_limit e); cbn [server trace].
  - eexists _, [_]. split; [reflexivity|]. split; eauto.
  - destruct (getitem options "retry_backoff") as [b| | |];
      try (eexists _, [_]; split; [reflexivity|]; split; [eauto|discriminate]).
    destruct (py_mul (Client.retry_delay st) b);
      eexists _, [_]; (split; [reflexivity|]); split; eauto; discriminate.
Qed.

(** One iteration on a server that holds a response: the call, then at
    most one wait; a wait when the loop goes on, none when it returns. *)
Lemma iteration_effect (st : Client.retry_state) (w : world) (r : response)
    (rest : list response) :
  server w = r :: rest →
  ∃ o sl,
    Client.iteration method url ro options st w
    = (o, {| server := rest; trace := trace w ++ [Transport method url ro] ++ sl |})
    ∧ (sl = [] ∨ ∃ s, sl = [Sleep s])
    ∧ (∀ st', o = Ok (inr st') → ∃ s, sl = [Sleep s])
    ∧ (∀ v, o = Ok (inl v) → sl = []).
Proof.
  intros Hs. unfold Client.iteration.
  destruct (try_body_effect w r rest Hs) as [o ->].
  destruct o as [v|e| |].
  - exists (Ok (inl v)), []. repeat split; auto; discriminate.
  - destruct (Client.is_retryable e).
    + destruct (handler_effect st e
                  {| server := rest; trace := trace w ++ [Transport method url ro] |})
        as (o & sl & Hh & Hsl & Hok).
      unfold bind. rewrite Hh. cbn [server trace].
      rewrite <- app_assoc.
      destruct o as [st'| | |]; eexists _, sl; (split; [reflexivity|]);
        (split; [exact Hsl|]); (split; [|intros ? [=]]); try (intros ? [=]).
      apply (Hok st' eq_refl).
    + exists (Raise e), []. repeat split; auto; discriminate.
  - exists Blocked, []. repeat split; auto; discriminate.
  - exists Unmodelled, []. repeat split; auto; discriminate.
Qed.

Lemma iteration_blocked (st : Client.retry_state) (w : world) :
  server w = [] →
  Client.iteration method url ro options st w = (Blocked, w).
Proof.
  intros Hs. unfold Client.iteration, Client.try_body, Client.transport, bind.
  rewrite Hs. reflexivity.
Qed.

(** The trace of the loop: calls of the transport and waits in
    alternation, ending with a call or with a wait; a response taken for
    each call; a last call that is not followed by a wait when the loop
    returns. *)
Lemma loop_effect (fuel : nat) :
  ∀ (st : Client.retry_state) (w : world),
  ∃ waits last,
    trace (snd (Client.loop fuel method url ro options st w))
    = trace w ++ retry_events method url ro waits ++ last
    ∧ (last = [] ∨ last = [Transport method url ro])
    ∧ length (server w)
      = length (server (snd (Client.loop fuel method url ro options st w)))
        + length waits + length last
    ∧ (∀ v, fst (Client.loop fuel method url ro options st w) = Ok v →
            last = [Transport method url ro]).
Proof.
  induction fuel as [|fuel IH]; intros st w.
  - exists [], []. cbn. rewrite app_nil_r. split_and!; auto; try lia; intros ? [=].
  - destruct (server w) as [|r rest] eqn:Hs.
    + assert (Hrun : Client.loop (S fuel) method url ro options st w = (Blocked, w)).
      { cbn [Client.loop]. unfold bind. rewrite (iteration_blocked st w Hs).
        reflexivity. }
      rewrite Hrun. exists [], []. cbn [fst snd]. rewrite ?Hs. cbn.
      rewrite app_nil_r. split_and!; auto; intros ? [=].
    + destruct (iteration_effect st w r rest Hs) as (o & sl & Hit & Hsl & Hgo & Hret).
      set (w1 := {| server := rest;
                    trace := trace w ++ [Transport method url ro] ++ sl |}) in *.
      assert (Hrun : Client.loop (S fuel) method url ro options st w
                     = match o with
                       | Ok (inl v) => (Ok v, w1)
                       | Ok (inr st') => Client.loop fuel method url ro options st' w1
                       | Raise e => (Raise e, w1)
                       | Blocked => (Blocked, w1)
                       | Unmodelled => (Unmodelled, w1)
                       end).
      { cbn [Client.loop]. unfold bind. rewrite Hit.
        destruct o as [[v|st']| | |]; reflexivity. }
      rewrite Hrun. clear Hrun Hit. rewrite ?Hs. cbn [length].
      destruct o as [[v|st']| | |].
      * subst w1. rewrite (Hret v eq_refl). exists [], [Transport method url ro].
        cbn. split_and!; auto; lia.
      * destruct (Hgo st' eq_refl) as [s ->].
        destruct (IH st' w1) as (waits & last & Ht & Hlast & Hlen & Hok).
        exists (s :: waits), last. rewrite Ht. subst w1. cbn [trace server] in *.
        rewrite retry_events_cons, <- !app_assoc. cbn [length].
        split_and!; auto; lia.
      * destruct Hsl as [-> | [s ->]]; subst w1; cbn [fst snd server trace].
        -- exists [], [Transport method url ro]. cbn.
           split_and!; auto; try lia; intros ? [=].
        -- exists [s], []. cbn. split_and!; auto; try lia; intros ? [=].
      * destruct Hsl as [-> | [s ->]]; subst w1; cbn [fst snd server trace].
        -- exists [], [Transport method url ro]. cbn.
           split_and!; auto; try lia; intros ? [=].
        -- exists [s], []. cbn. split_and!; auto; try lia; intros ? [=].
      * destruct Hsl as [-> | [s ->]]; subst w1; cbn [fst snd server trace].
        -- exists [], [Transport method url ro]. cbn.
           split_and!; auto; try lia; intros ? [=].
        -- exists [s], []. cbn. split_and!; auto; try lia; intros ? [=].
Qed.

End Effect.

Lemma gets_retry_events (method url : string) (ro : dict) (waits : list value) :
  gets (retry_events method url ro waits) = [].
Proof.
  induction waits as [|x waits IH]; [reflexivity|].
  rewrite retry_events_cons. unfold gets in *. rewrite omap_app, IH. reflexivity.
Qed.

Lemma transports_retry_events (method url : string) (ro : dict) (waits : list value) :
  transports (retry_events method url ro waits)
  = replicate (length waits) (method, url, ro).
Proof.
  induction waits as [|x waits IH]; [reflexivity|].
  rewrite retry_events_cons. unfold transports in *. rewrite omap_app, IH.
  reflexivity.
Qed.

Section RequestEffect.
Context `{ErrorModule}.
Variables (self : Client.t) (method : string) (path : value) (options : dict).

(** Either the options resolve, or [request] stops before its loop. *)
Lemma request_cases :
  (∃ url configured delay ro, resolves self options path url configured delay ro)
  ∨ (∀ w, ∃ o, Client.request self method path options w = (o, w)
               ∧ ∀ v, o ≠ Ok v).
Proof.
  destruct (getitem (Client._merge_options self [options]) "base_url")
    as [base| | |] eqn:Hbase;
    [|right; intros w; eexists; unfold Client.request, bind, lift;
      rewrite Hbase; split; [reflexivity|discriminate]..].
  destruct (Client.concat base path) as [url| | |] eqn:Hurl;
    [|right; intros w; eexists; unfold Client.request, bind, lift;
      rewrite Hbase, Hurl; split; [reflexivity|discriminate]..].
  destruct (getitem (Client._merge_options self [options]) "retries")
    as [configured| | |] eqn:Hretries;
    [|right; intros w; eexists; unfold Client.request, bind, lift;
      rewrite Hbase, Hurl, Hretries; split; [reflexivity|discriminate]..].
  destruct (getitem (Client._merge_options self [options]) "retry_delay")
    as [delay| | |] eqn:Hdelay;
    [|right; intros w; eexists; unfold Client.request, bind, lift;
      rewrite Hbase, Hurl, Hretries, Hdelay; split; [reflexivity|discriminate]..].
  destruct (Client._parse_request_options self (Client._merge_options self [options]))
    as [ro| | |] eqn:Hro;
    [|right; intros w; eexists; unfold Client.request, bind, lift;
      rewrite Hbase, Hurl, Hretries, Hdelay, Hro;
      split; [reflexivity|discriminate]..].
  left. exists url, configured, delay, ro. constructor.
  - rewrite Hbase. exact Hurl.
  - unfold getitem in Hretries.
    destruct (Client._merge_options self [options] !! "retries"); congruence.
  - unfold getitem in Hdelay.
    destruct (Client._merge_options self [options] !! "retry_delay"); congruence.
  - exact Hro.
Qed.

(** The trace of [request]: calls of the transport and waits in
    alternation, all calls alike, one response taken per call. *)
Lemma request_effect (w : world) :
  ∃ url ro waits last,
    trace (snd (Client.request self method path options w))
    = trace w ++ retry_events method url ro waits ++ last
    ∧ (last = [] ∨ last = [Transport method url ro])
    ∧ length (server w)
      = length (server (snd (Client.request self method path options w)))
        + length waits + length last
    ∧ (∀ v, fst (Client.request self method path options w) = Ok v →
            last = [Transport method url ro])
    ∧ (waits ≠ [] ∨ last ≠ [] →
       ∃ configured delay, resolves self options path url configured delay ro).
Proof.
  destruct request_cases as [(url & configured & delay & ro & Hres) | Hstop].
  - rewrite (request_resolved self method path options url configured delay ro Hres).
    destruct (loop_effect method url ro (Client._merge_options self [options])
                (length (server w))
                {| Client.retries := initial_retries configured;
                   Client.retry_delay := delay |} w)
      as (waits & last & Ht & Hlast & Hlen & Hok).
    exists url, ro, waits, last. split_and!; eauto.
  - destruct (Hstop w) as (o & -> & Hno).
    exists EmptyString, ∅, [], []. cbn. rewrite app_nil_r.
    split_and!; auto; try lia.
    + intros v Hv. destruct (Hno v Hv).
    + intros [Hne | Hne]; destruct Hne; reflexivity.
Qed.

End RequestEffect.

(** X6 What [request] does to the world, whatever its outcome.  It adds to
    the trace calls of the transport and sleeps only, all calls with the
    same method, URL and options; it takes one response of the server per
    call; sleeps and calls alternate, so that there are never more sleeps
    than calls nor two calls more than sleeps; and when it returns a value
    the last event is a call: one call more than sleeps. *)
Theorem request_alternates `{ErrorModule} (self : Client.t) (method : string)
    (path : value) (options : dict) (w : world) :
  ∃ evs,
    trace (snd (Client.request self method path options w)) = trace w ++ evs
    ∧ gets evs = []
    ∧ length (server w)
      = length (server (snd (Client.request self method path options w)))
        + attempts evs
    ∧ length (sleeps evs) ≤ attempts evs ≤ S (length (sleeps evs))
    ∧ (∀ v, fst (Client.request self method path options w) = Ok v →
            attempts evs = S (length (sleeps evs)))
    ∧ ∃ url ro, transports evs = replicate (attempts evs) (method, url, ro).
Proof.
  destruct (request_effect self method path options w)
    as (url & ro & waits & last & Ht & Hlast & Hlen & Hok & _).
  exists (retry_events method url ro waits ++ last).
  assert (Ha : attempts (retry_events method url ro waits ++ last)
               = length waits + length last).
  { rewrite attempts_app, attempts_retry_events.
    destruct Hlast as [-> | ->]; reflexivity. }
  assert (Hsl : sleeps (retry_events method url ro waits ++ last) = waits).
  { rewrite sleeps_app, sleeps_retry_events.
    destruct Hlast as [-> | ->]; cbn; apply app_nil_r. }
  rewrite Ha, Hsl. split_and!.
  - exact Ht.
  - unfold gets. rewrite omap_app. fold (gets (retry_events method url ro waits)).
    rewrite gets_retry_events. destruct Hlast as [-> | ->]; reflexivity.
  - lia.
  - lia.
  - destruct Hlast as [-> | ->]; cbn; lia.
  - intros v Hv. rewrite (Hok v Hv). cbn. lia.
  - exists url, ro. unfold transports. rewrite omap_app.
    fold (transports (retry_events method url ro waits)).
    rewrite transports_retry_events.
    destruct Hlast as [-> | ->]; cbn.
    + rewrite app_nil_r, Nat.add_0_r. reflexivity.
    + rewrite replicate_add. reflexivity.
Qed.

(** X7 An error of a class that is not retryable is raised at once: one
    call of the transport, no sleep, whatever the retry budget. *)
Theorem fatal_error_is_not_retried `{ErrorModule} (self : Client.t) (method : string)
    (path : value) (options : dict) (url : string) (configured delay : value)
    (ro : dict) (r : response) (Klass : error_class) (rest : list response)
    (tr : list event) :
  resolves self options path url configured delay ro →
  classify r = Some Klass →
  retryable Klass = false →
  Client.request self method path options {| server := r :: rest; trace := tr |}
  = (Raise (AsanaError Klass r),
     {| server := rest; trace := tr ++ [Transport method url ro] |}).
Proof.
  intros Hres Hc Hfatal.
  rewrite (request_resolved self method path options url configured delay ro Hres).
  cbn [server length Client.loop]. unfold bind at 1.
  rewrite (iteration_fatal method url ro _ r rest tr _ Klass Hc Hfatal).
  reflexivity.
Qed.

Lemma fatal_error_is_not_retried_witness :
  fst (@Client.request taxonomy default_client "get" (VStr "/tasks/1")
         (<["retries" := VBool true]> ∅)
         {| server := [answer 404 VNone; server_error]; trace := [] |})
  = Raise (AsanaError (error_class_of "NotFound" 404 false false) (answer 404 VNone)).
Proof.
  exact (f_equal fst
           (@fatal_error_is_not_retried taxonomy default_client "get"
              (VStr "/tasks/1") (<["retries" := VBool true]> ∅)
              "https://app.asana.com/api/1.0/tasks/1" (VBool true) (VFloat 1) ∅
              (answer 404 VNone) (error_class_of "NotFound" 404 false false)
              [server_error] []
              ltac:(split; vm_compute; reflexivity)
              ltac:(vm_compute; reflexivity)
              ltac:(reflexivity))).
Defined.

(** X8 Retries followed by success.  After a run of retryable failures
    within the budget, a response whose status is not in the map ends the
    request: it returns the decoded body when [full_payload] is true and
    the [data] member of the body otherwise, having called the transport
    once per response and slept once per failure. *)
Theorem retries_then_success `{ErrorModule} (self : Client.t) (method : string)
    (path : value) (options : dict) (url : string) (configured delay b full : value)
    (ro : dict) (script : list response) (r : response) (body : value)
    (rest : list response) (tr : list event) :
  resolves self options path url configured delay ro →
  Client._merge_options self [options] !! "retry_backoff" = Some b →
  Client._merge_options self [options] !! "full_payload" = Some full →
  multiplies delay b = true →
  Forall (λ r, retried r = true) script →
  allows (initial_retries configured) (length script) = true →
  classify r = None →
  json r = Some body →
  Client.request self method path options
    {| server := script ++ r :: rest; trace := tr |}
  = ((if truthy full then Ok body else subscript body "data"),
     {| server := rest;
        trace := (tr ++ retry_events method url ro (schedule delay b script))
                 ++ [Transport method url ro] |}).
Proof.
  intros Hres Hb Hfull Hmul Hall Hbudget Hc Hbody.
  rewrite (request_absorbs self method path options url configured delay ro Hres
             b script (r :: rest) tr Hb Hmul Hall Hbudget).
  cbn [length Client.loop]. unfold bind at 1.
  rewrite iteration_unmapped by exact Hc.
  unfold getitem. rewrite Hfull, Hbody. cbn [rbind].
  destruct (truthy full); [reflexivity|].
  destruct (subscript body "data"); reflexivity.
Qed.

Lemma retries_then_success_witness :
  fst (@Client.request taxonomy default_client "get" (VStr "/tasks") ∅
         {| server := [server_error; too_many_requests (VInt 30)]
                      ++ answer 200 (envelope (VInt 7) VNone) :: [];
            trace := [] |})
  = Ok (VInt 7).
Proof.
  exact (f_equal fst
           (@retries_then_success taxonomy default_client "get" (VStr "/tasks") ∅
              "https://app.asana.com/api/1.0/tasks" (VInt 5) (VFloat 1) (VFloat 2)
              (VBool false) ∅ [server_error; too_many_requests (VInt 30)]
              (answer 200 (envelope (VInt 7) VNone)) (envelope (VInt 7) VNone) [] []
              ltac:(split; vm_compute; reflexivity)
              ltac:(vm_compute; reflexivity)
              ltac:(vm_compute; reflexivity)
              ltac:(reflexivity)
              ltac:(repeat constructor)
              ltac:(reflexivity)
              ltac:(vm_compute; reflexivity)
              ltac:(reflexivity))).
Defined.

(** X9 No budget, no retry.  With [retries] set to 0, to a negative
    integer or to [False], the first retryable failure is raised as it is
    after one call of the transport and without any sleep. *)
Theorem no_budget_no_retry `{ErrorModule} (self : Client.t) (method : string)
    (path : value) (options : dict) (url : string) (configured delay : value)
    (ro : dict) (r : response) (e : exn) (rest : list response) (tr : list event) :
  resolves self options path url configured delay ro →
  (configured = VBool false ∨ ∃ n, configured = VInt n ∧ (n ≤ 0)%Z) →
  retried r = true →
  error_of r = Some e →
  Client.request self method path options {| server := r :: rest; trace := tr |}
  = (Raise e, {| server := rest; trace := tr ++ [Transport method url ro] |}).
Proof.
  intros Hres Hzero Hr He.
  rewrite (request_resolved self method path options url configured delay ro Hres).
  destruct (retried_classified r Hr) as (Klass & Hc & Hretry & _).
  unfold error_of in He. rewrite Hc in He. injection He as <-.
  cbn [server length Client.loop]. unfold bind at 1.
  rewrite (iteration_retried method url ro _ r rest tr _ Klass Hc Hretry).
  unfold bind at 1. rewrite handler_exhausted; [reflexivity|].
  cbn [Client.retries]. destruct Hzero as [-> | (n & -> & Hn)].
  - reflexivity.
  - unfold initial_retries, eq_True. cbn [as_number].
    destruct (Z.eqb_spec n 1); [lia|]. cbn [py_gt0 as_number]. f_equal.
    apply Z.ltb_ge. exact Hn.
Qed.

Lemma no_budget_no_retry_witness :
  fst (@Client.request taxonomy default_client "get" (VStr "/tasks")
         (<["retries" := VInt 0]> ∅)
         {| server := [server_error; answer 200 (envelope (VInt 7) VNone)];
            trace := [] |})
  = Raise (AsanaError (error_class_of "ServerError" 500 true false) server_error).
Proof.
  exact (f_equal fst
           (@no_budget_no_retry taxonomy default_client "get" (VStr "/tasks")
              (<["retries" := VInt 0]> ∅) "https://app.asana.com/api/1.0/tasks"
              (VInt 0) (VFloat 1) ∅ server_error
              (AsanaError (error_class_of "ServerError" 500 true false) server_error)
              [answer 200 (envelope (VInt 7) VNone)] []
              ltac:(split; vm_compute; reflexivity)
              ltac:(right; exists 0%Z; split; [reflexivity|lia])
              ltac:(reflexivity)
              ltac:(vm_compute; reflexivity))).
Defined.

(** ** What the verbs send *)

Lemma merge_options_lookup (self : Client.t) (options : dict) (key : string) :
  Client._merge_options self [options] !! key
  = match options !! key with
    | Some v => Some v
    | None => Client.options self !! key
    end.
Proof.
  unfold Client._merge_options, _merge, update; simpl.
  rewrite !lookup_union, lookup_empty.
  destruct (options !! key), (Client.options self !! key); reflexivity.
Qed.

Lemma merge_options_again (self : Client.t) (options : dict) (key : string) :
  Client._merge_options self [Client._merge_options self [options]] !! key
  = Client._merge_options self [options] !! key.
Proof.
  rewrite (merge_options_lookup self (Client._merge_options self [options])).
  rewrite (merge_options_lookup self options).
  destruct (options !! key), (Client.options self !! key); reflexivity.
Qed.

(** The transport options, when they are accepted: [headers] and [data]
    as resolved, nothing but the three keys. *)
Lemma parse_request_options_other (self : Client.t) (options ro : dict) :
  Client._parse_request_options self options = Ok ro →
  ∀ key, key ≠ "params" →
  ro !! key = if bool_decide (key ∈ ["headers"; "data"])
              then Client._merge_options self [options] !! key else None.
Proof.
  unfold Client._parse_request_options, Client._select_options.
  intros Hro key Hkey.
  assert (Hsel : (list_to_map
                    (omap (λ k, (λ v, (k, v))
                                <$> Client._merge_options self [options] !! k)
                       ["headers"; "params"; "data"]) : dict) !! key
                 = if bool_decide (key ∈ ["headers"; "data"])
                   then Client._merge_options self [options] !! key else None).
  { rewrite select_lookup.
    assert (Hin : bool_decide (key ∈ ["headers"; "params"; "data"])
                  = bool_decide (key ∈ ["headers"; "data"])).
    { apply bool_decide_ext. rewrite !elem_of_cons. tauto. }
    rewrite Hin. reflexivity. }
  revert Hro. rewrite select_lookup.
  rewrite bool_decide_eq_true_2 by (repeat constructor).
  destruct (Client._merge_options self [options] !! "params")
    as [[| | | |[|? ?]|[|? ?]|params]|];
    try discriminate; intros [= <-]; try exact Hsel.
  rewrite lookup_insert_ne by congruence. exact Hsel.
Qed.

Lemma parse_request_options_dict (self : Client.t) (options params : dict) :
  Client._merge_options self [options] !! "params" = Some (VDict params) →
  ∃ ro, Client._parse_request_options self options = Ok ro
        ∧ ro !! "params" = Some (VDict (Client.dumps_bool <$> params)).
Proof.
  intros Hp. unfold Client._parse_request_options, Client._select_options.
  rewrite select_lookup, bool_decide_eq_true_2 by (repeat constructor).
  rewrite Hp. eexists. split; [reflexivity|]. apply lookup_insert_eq.
Qed.

(** X10 The options handed to the transport, when [params] is a
    dictionary.  They are accepted; they hold [headers] and [data] as the
    options resolve them and nothing but the three keys; and in [params]
    every boolean has become its JSON literal, ['true'] or ['false'], every
    other value being left as it is. *)
Theorem request_options_serialise_booleans (self : Client.t) (options params : dict) :
  Client._merge_options self [options] !! "params" = Some (VDict params) →
  ∃ ro sent,
    Client._parse_request_options self options = Ok ro
    ∧ ro !! "params" = Some (VDict sent)
    ∧ (∀ key, sent !! key
              = match params !! key with
                | Some (VBool b) => Some (VStr (if b then "true" else "false"))
                | other => other
                end)
    ∧ ro !! "headers" = Client._merge_options self [options] !! "headers"
    ∧ ro !! "data" = Client._merge_options self [options] !! "data"
    ∧ (∀ key, is_Some (ro !! key) → key ∈ ["headers"; "params"; "data"]).
Proof.
  intros Hp. destruct (parse_request_options_dict self options params Hp)
    as (ro & Hro & Hparams).
  exists ro, (Client.dumps_bool <$> params). split_and!; auto.
  - intros key. rewrite lookup_fmap.
    destruct (params !! key) as [[| [|] | | | | |]|]; reflexivity.
  - rewrite (parse_request_options_other self options ro Hro) by discriminate.
    reflexivity.
  - rewrite (parse_request_options_other self options ro Hro) by discriminate.
    reflexivity.
  - intros key Hsome. destruct (decide (key = "params")) as [->|Hne];
      [repeat constructor|].
    rewrite (parse_request_options_other self options ro Hro) in Hsome by exact Hne.
    destruct (decide (key = "headers")) as [->|Hh]; [repeat constructor|].
    destruct (decide (key = "data")) as [->|Hd]; [repeat constructor|].
    rewrite bool_decide_eq_false_2 in Hsome; [destruct Hsome; discriminate|].
    rewrite !elem_of_cons, elem_of_nil. tauto.
Qed.

Lemma request_options_serialise_booleans_witness :
  ∃ ro sent,
    Client._parse_request_options default_client completed_params = Ok ro
    ∧ ro !! "params" = Some (VDict sent)
    ∧ sent !! "completed" = Some (VStr "true").
Proof.
  destruct (request_options_serialise_booleans default_client completed_params
              completed_filter ltac:(vm_compute; reflexivity))
    as (ro & sent & Hro & Hp & Hsent & _).
  exists ro, sent. split_and!; [exact Hro|exact Hp|rewrite Hsent; reflexivity].
Defined.

Lemma transports_app (tr1 tr2 : list event) :
  transports (tr1 ++ tr2) = transports tr1 ++ transports tr2.
Proof. apply omap_app. Qed.

(** The calls [request] adds to the trace are all alike, and when there is
    one the transport options were accepted. *)
Lemma request_transports `{ErrorModule} (self : Client.t) (method : string)
    (path : value) (options : dict) (w : world) :
  ∃ n url ro,
    transports (trace (snd (Client.request self method path options w)))
    = transports (trace w) ++ replicate n (method, url, ro)
    ∧ (n ≠ 0 →
       Client._parse_request_options self (Client._merge_options self [options])
       = Ok ro).
Proof.
  destruct (request_effect self method path options w)
    as (url & ro & waits & last & Ht & Hlast & _ & _ & Hres).
  exists (length waits + length last), url, ro. split.
  - rewrite Ht, !transports_app, transports_retry_events, replicate_add.
    destruct Hlast as [-> | ->]; reflexivity.
  - intros Hn. destruct Hres as (configured & delay & [_ _ _ Hro]); [|exact Hro].
    destruct waits; [|left; discriminate]. destruct last; [|right; discriminate].
    destruct Hn. reflexivity.
Qed.

Lemma bind_keywords_clash (named : list string) (kwargs : dict) (key : string) :
  key ∈ named → is_Some (kwargs !! key) →
  bind_keywords named kwargs = Raise TypeError.
Proof.
  intros Hin Hsome. unfold bind_keywords.
  replace (existsb (λ k, bool_decide (is_Some (kwargs !! k))) named) with true;
    [reflexivity|].
  symmetry. apply existsb_exists. exists key. split.
  - apply list_elem_of_In. exact Hin.
  - apply bool_decide_eq_true_2. exact Hsome.
Qed.

Lemma query_form_outcome (entry : option value) :
  (∃ o, query_form entry = Ok o) ∨ query_form entry = Raise TypeError.
Proof.
  unfold query_form. destruct entry as [[| | | | |items|]|]; eauto.
  destruct (join_outcome items) as [(strs & _ & ->) | [_ ->]]; cbn; eauto.
Qed.

(** [_parse_api_options] returns, or raises [TypeError]. *)
Lemma parse_api_outcome (self : Client.t) (options : dict) (query_string : bool) :
  (∃ api, Client._parse_api_options self options query_string = Ok api)
  ∨ Client._parse_api_options self options query_string = Raise TypeError.
Proof.
  unfold Client._parse_api_options. destruct query_string; [|eauto].
  rewrite api_options_fold.
  destruct (query_form_outcome
              (Client._select_options self options ["pretty"; "fields"; "expand"]
               !! "expand")) as [[o1 ->] | ->]; [|right; reflexivity].
  destruct (query_form_outcome
              (Client._select_options self options ["pretty"; "fields"; "expand"]
               !! "fields")) as [[o2 ->] | ->]; [|right; reflexivity].
  destruct (query_form_outcome
              (Client._select_options self options ["pretty"; "fields"; "expand"]
               !! "pretty")) as [[o3 ->] | ->]; [|right; reflexivity].
  left. eexists. reflexivity.
Qed.

(** [get], once the API options are parsed. *)
Lemma get_unfold `{ErrorModule} (self : Client.t) (path : value)
    (query options api : dict) (w : world) :
  Client._parse_api_options self options true = Ok api →
  Client.get self path query options w
  = match bind_keywords ["self"; "method"; "path"; "params"] options with
    | Ok _ =>
        Client.request self "get" path
          (<["params" := VDict (query_of_get self api query options)]> options)
          {| server := server w; trace := trace w ++ [Get path query options] |}
    | Raise e =>
        (Raise e, {| server := server w; trace := trace w ++ [Get path query options] |})
    | Blocked =>
        (Blocked, {| server := server w; trace := trace w ++ [Get path query options] |})
    | Unmodelled =>
        (Unmodelled,
         {| server := server w; trace := trace w ++ [Get path query options] |})
    end.
Proof.
  intros Hapi. unfold Client.get, bind, log, lift. rewrite Hapi.
  destruct (bind_keywords ["self"; "method"; "path"; "params"] options) as [[]| | |];
    reflexivity.
Qed.

(** X11 What [get] sends.  Every call of the transport that [get] makes
    has the method [get] and the same URL and options, and its [params]
    are the merge of the query options ([limit], [offset], [sync]), the API
    options in query-string form and the query of the caller, booleans
    serialised: for each key the value of the caller's query wins, then the
    one of the API options, then the one of the query options. *)
Theorem get_sends_merged_query `{ErrorModule} (self : Client.t) (path : value)
    (query options api : dict) (w : world) :
  Client._parse_api_options self options true = Ok api →
  ∃ n url ro,
    transports (trace (snd (Client.get self path query options w)))
    = transports (trace w) ++ replicate n ("get", url, ro)
    ∧ (n ≠ 0 →
       ro !! "params"
       = Some (VDict (Client.dumps_bool <$> query_of_get self api query options)))
    ∧ ∀ key,
        query_of_get self api query options !! key
        = match query !! key with
          | Some v => Some v
          | None =>
              match api !! key with
              | Some v => Some v
              | None => Client._parse_query_options self options !! key
              end
          end.
Proof.
  intros Hapi. rewrite (get_unfold self path query options api w Hapi).
  assert (Hprec : ∀ key,
            query_of_get self api query options !! key
            = match query !! key with
              | Some v => Some v
              | None =>
                  match api !! key with
                  | Some v => Some v
                  | None => Client._parse_query_options self options !! key
                  end
              end).
  { intros key. unfold query_of_get, _merge, update; simpl.
    rewrite !lookup_union, lookup_empty.
    destruct (query !! key), (api !! key),
      (Client._parse_query_options self options !! key); reflexivity. }
  destruct (bind_keywords ["self"; "method"; "path"; "params"] options) as [[]| | |].
  - destruct (request_transports self "get" path
                (<["params" := VDict (query_of_get self api query options)]> options)
                {| server := server w; trace := trace w ++ [Get path query options] |})
      as (n & url & ro & Ht & Hro).
    exists n, url, ro. split_and!; [|intros Hn|exact Hprec].
    + rewrite Ht. cbn [trace]. rewrite transports_app. cbn. rewrite app_nil_r.
      reflexivity.
    + specialize (Hro Hn).
      destruct (parse_request_options_dict self
                  (Client._merge_options self
                     [<["params" := VDict (query_of_get self api query options)]>
                        options])
                  (query_of_get self api query options)) as (ro' & Hro' & Hp).
      * rewrite merge_options_again, merge_options_lookup, lookup_insert_eq.
        reflexivity.
      * congruence.
  - exists 0, EmptyString, ∅. cbn [snd trace]. rewrite transports_app. cbn.
    split_and!; [reflexivity|intros []; reflexivity|exact Hprec].
  - exists 0, EmptyString, ∅. cbn [snd trace]. rewrite transports_app. cbn.
    split_and!; [reflexivity|intros []; reflexivity|exact Hprec].
  - exists 0, EmptyString, ∅. cbn [snd trace]. rewrite transports_app. cbn.
    split_and!; [reflexivity|intros []; reflexivity|exact Hprec].
Qed.

Lemma api_options_are_prefixed_witness :
  Client._parse_api_options default_client fields_option true = Ok fields_query
  ∧ "opt_fields" ∈ ["opt_pretty"; "opt_fields"; "opt_expand"].
Proof.
  assert (Hq : Client._parse_api_options default_client fields_option true
               = Ok fields_query) by (vm_compute; reflexivity).
  split; [exact Hq|].
  apply (proj2 (api_options_are_prefixed default_client fields_option
                  fields_query Hq) "opt_fields").
  vm_compute. eauto.
Defined.

Lemma get_sends_merged_query_witness :
  ∃ n url ro,
    transports (trace (snd (@Client.get taxonomy default_client (VStr "/tasks")
                              completed_filter fields_option (fresh one_page))))
    = transports (trace (fresh one_page)) ++ replicate n ("get", url, ro).
Proof.
  destruct (@get_sends_merged_query taxonomy default_client (VStr "/tasks")
              completed_filter fields_option fields_query (fresh one_page)
              ltac:(vm_compute; reflexivity)) as (n & url & ro & Ht & _).
  exists n, url, ro. exact Ht.
Defined.

(** The query of the caller, the API options and the query options, as
    the transport receives them for one call of [get]. *)
Example get_query_as_sent :
  (λ call, match call.2 !! "params" with
           | Some (VDict q) =>
               (q !! "completed", q !! "opt_fields", q !! "limit")
           | _ => (None, None, None)
           end)
    <$> transports (trace (snd (@Client.get taxonomy default_client (VStr "/tasks")
                                  completed_filter fields_option (fresh one_page))))
  = [(Some (VStr "true"), Some (VStr "name,notes"), Some (VInt 100))].
Proof. vm_compute. reflexivity. Qed.

(** X12 A keyword that [get] passes itself cannot be an option of the
    call: with [params] (or [method], [path], [self]) among the options the
    call of [request] is a [TypeError], and nothing is sent. *)
Theorem get_rejects_reserved_keywords `{ErrorModule} (self : Client.t) (path : value)
    (query options : dict) (key : string) (w : world) :
  key ∈ ["self"; "method"; "path"; "params"] →
  is_Some (options !! key) →
  Client.get self path query options w
  = (Raise TypeError,
     {| server := server w; trace := trace w ++ [Get path query options] |}).
Proof.
  intros Hkey Hsome.
  destruct (parse_api_outcome self options true) as [[api Hapi] | Hapi].
  - rewrite (get_unfold self path query options api w Hapi).
    rewrite (bind_keywords_clash _ options key Hkey Hsome). reflexivity.
  - unfold Client.get, bind, log, lift. rewrite Hapi. reflexivity.
Qed.

Lemma get_rejects_reserved_keywords_witness :
  fst (@Client.get taxonomy default_client (VStr "/tasks") ∅ completed_params
         (fresh one_page))
  = Raise TypeError.
Proof.
  exact (f_equal fst
           (@get_rejects_reserved_keywords taxonomy default_client (VStr "/tasks") ∅
              completed_params "params" (fresh one_page)
              ltac:(repeat constructor)
              ltac:(vm_compute; eauto))).
Defined.

(** [post] and [put], up to the call of [request]. *)
Lemma post_unfold `{JsonEncoder} `{ErrorModule} (self : Client.t) (path data : value)
    (options : dict) (w : world) :
  Verbs.post self path data options w
  = match bind_keywords ["self"; "method"; "path"; "data"; "headers"] options with
    | Ok _ =>
        Client.request self "post" path
          (<["data" := VStr (dumps (VDict (body_of_write self data options)))]>
             (<["headers" := VDict content_type]> options)) w
    | Raise e => (Raise e, w)
    | Blocked => (Blocked, w)
    | Unmodelled => (Unmodelled, w)
    end.
Proof.
  unfold Verbs.post, Client._parse_api_options, bind, lift, body_of_write.
  destruct (bind_keywords _ options) as [[]| | |]; reflexivity.
Qed.

Lemma put_unfold `{JsonEncoder} `{ErrorModule} (self : Client.t) (path data : value)
    (options : dict) (w : world) :
  Verbs.put self path data options w
  = match bind_keywords ["self"; "method"; "path"; "data"; "headers"] options with
    | Ok _ =>
        Client.request self "put" path
          (<["data" := VStr (dumps (VDict (body_of_write self data options)))]>
             (<["headers" := VDict content_type]> options)) w
    | Raise e => (Raise e, w)
    | Blocked => (Blocked, w)
    | Unmodelled => (Unmodelled, w)
    end.
Proof.
  unfold Verbs.put, Client._parse_api_options, bind, lift, body_of_write.
  destruct (bind_keywords _ options) as [[]| | |]; reflexivity.
Qed.

(** X13 [post] and [put] pass [data] and [headers] themselves: a call that
    gives either as an option (custom headers, say) is a [TypeError] at the
    call of [request], and nothing is sent. *)
Theorem write_rejects_headers_and_data `{JsonEncoder} `{ErrorModule}
    (self : Client.t) (path data : value) (options : dict) (key : string)
    (w : world) :
  key ∈ ["self"; "method"; "path"; "data"; "headers"] →
  is_Some (options !! key) →
  Verbs.post self path data options w = (Raise TypeError, w)
  ∧ Verbs.put self path data options w = (Raise TypeError, w).
Proof.
  intros Hkey Hsome. rewrite post_unfold, put_unfold.
  rewrite (bind_keywords_clash _ options key Hkey Hsome). split; reflexivity.
Qed.

Lemma write_rejects_headers_and_data_witness :
  @Verbs.post constant_encoder taxonomy default_client (VStr "/tasks") (VInt 7)
    headers_option (fresh one_page)
  = (Raise TypeError, fresh one_page)
  ∧ @Verbs.put constant_encoder taxonomy default_client (VStr "/tasks") (VInt 7)
      headers_option (fresh one_page)
    = (Raise TypeError, fresh one_page).
Proof.
  exact (@write_rejects_headers_and_data constant_encoder taxonomy default_client
           (VStr "/tasks") (VInt 7) headers_option "headers" (fresh one_page)
           ltac:(repeat constructor)
           ltac:(vm_compute; eauto)).
Defined.

Section Writes.
Context `{JsonEncoder} `{ErrorModule}.
Variables (self : Client.t) (path data : value) (options : dict).

(** The calls of a writing verb carry the JSON content type and the
    encoded body, whatever the client was built with. *)
Lemma write_transports (method : string) (w : world) :
  ∃ n url ro,
    transports
      (trace (snd (Client.request self method path
                     (<["data" := VStr (dumps (VDict (body_of_write self data options)))]>
                        (<["headers" := VDict content_type]> options)) w)))
    = transports (trace w) ++ replicate n (method, url, ro)
    ∧ (n ≠ 0 →
       ro !! "headers" = Some (VDict content_type)
       ∧ ro !! "data"
         = Some (VStr (dumps (VDict (body_of_write self data options))))).
Proof.
  destruct (request_transports self method path
              (<["data" := VStr (dumps (VDict (body_of_write self data options)))]>
                 (<["headers" := VDict content_type]> options)) w)
    as (n & url & ro & Ht & Hro).
  exists n, url, ro. split; [exact Ht|]. intros Hn. specialize (Hro Hn). split.
  - rewrite (parse_request_options_other _ _ ro Hro) by discriminate.
    rewrite bool_decide_eq_true_2 by (repeat constructor).
    rewrite merge_options_again, merge_options_lookup.
    rewrite lookup_insert_ne by discriminate. rewrite lookup_insert_eq. reflexivity.
  - rewrite (parse_request_options_other _ _ ro Hro) by discriminate.
    rewrite bool_decide_eq_true_2 by (repeat constructor).
    rewrite merge_options_again, merge_options_lookup.
    rewrite lookup_insert_eq. reflexivity.
Qed.

Lemma body_of_write_data : body_of_write self data options !! "data" = Some data.
Proof.
  unfold body_of_write. case_bool_decide.
  - rewrite lookup_insert_ne by discriminate. apply lookup_singleton_eq.
  - apply lookup_singleton_eq.
Qed.

Lemma body_of_write_plain :
  (∀ key, key ∈ ["pretty"; "fields"; "expand"] →
          Client._merge_options self [options] !! key = None) →
  body_of_write self data options !! "options" = None.
Proof.
  intros Hnone. unfold body_of_write.
  assert (Hempty : Client._select_options self options ["pretty"; "fields"; "expand"]
                   = ∅).
  { apply map_empty. intros key. unfold Client._select_options.
    rewrite select_lookup. case_bool_decide; [auto|reflexivity]. }
  rewrite Hempty, map_size_empty. rewrite bool_decide_eq_false_2 by lia.
  apply lookup_singleton_ne. discriminate.
Qed.

Lemma body_of_write_options (key : string) :
  key ∈ ["pretty"; "fields"; "expand"] →
  is_Some (Client._merge_options self [options] !! key) →
  body_of_write self data options !! "options"
  = Some (VDict (Client._select_options self options ["pretty"; "fields"; "expand"])).
Proof.
  intros Hkey Hsome. unfold body_of_write.
  assert (Hsize : size (Client._select_options self options
                          ["pretty"; "fields"; "expand"]) ≠ 0).
  { apply (map_size_ne_0_lookup_2 _ key). unfold Client._select_options.
    rewrite select_lookup, bool_decide_eq_true_2 by exact Hkey. exact Hsome. }
  rewrite bool_decide_eq_true_2 by lia. apply lookup_insert_eq.
Qed.

End Writes.

(** X14 What [post] and [put] send.  Every call of the transport has the
    verb as its method, the header [content-type: application/json] as its
    only headers (headers given to the constructor of the client are
    replaced, not merged) and as [data] the encoding of a body that holds
    the payload under [data] and, exactly when the resolved options hold one
    of [pretty], [fields], [expand], those options under [options]. *)
Theorem write_sends_json_body `{JsonEncoder} `{ErrorModule} (self : Client.t)
    (path data : value) (options : dict) (w : world) :
  bind_keywords ["self"; "method"; "path"; "data"; "headers"] options = Ok tt →
  (∃ n url ro,
     transports (trace (snd (Verbs.post self path data options w)))
     = transports (trace w) ++ replicate n ("post", url, ro)
     ∧ (n ≠ 0 →
        ro !! "headers" = Some (VDict content_type)
        ∧ ro !! "data"
          = Some (VStr (dumps (VDict (body_of_write self data options))))))
  ∧ (∃ n url ro,
       transports (trace (snd (Verbs.put self path data options w)))
       = transports (trace w) ++ replicate n ("put", url, ro)
       ∧ (n ≠ 0 →
          ro !! "headers" = Some (VDict content_type)
          ∧ ro !! "data"
            = Some (VStr (dumps (VDict (body_of_write self data options))))))
  ∧ body_of_write self data options !! "data" = Some data
  ∧ ((∀ key, key ∈ ["pretty"; "fields"; "expand"] →
             Client._merge_options self [options] !! key = None) →
     body_of_write self data options !! "options" = None)
  ∧ (∀ key, key ∈ ["pretty"; "fields"; "expand"] →
            is_Some (Client._merge_options self [options] !! key) →
            body_of_write self data options !! "options"
            = Some (VDict (Client._select_options self options
                             ["pretty"; "fields"; "expand"]))).
Proof.
  intros Hbind. split_and!.
  - rewrite post_unfold, Hbind. apply write_transports.
  - rewrite put_unfold, Hbind. apply write_transports.
  - apply body_of_write_data.
  - apply body_of_write_plain.
  - apply body_of_write_options.
Qed.

Lemma write_sends_json_body_witness :
  body_of_write default_client (VInt 7) fields_option !! "data" = Some (VInt 7).
Proof.
  exact (proj1 (proj2 (proj2
           (@write_sends_json_body constant_encoder taxonomy default_client
              (VStr "/tasks") (VInt 7) fields_option (fresh one_page)
              ltac:(vm_compute; reflexivity))))).
Defined.

(** ** The page iterator, step after step *)

Section IteratorState.
Context `{ErrorModule}.

Lemma fetch_preserves (self : _PageIterator.t) (w : world) :
  let it := snd (fst (_PageIterator.fetch self w)) in
  _PageIterator.client it = _PageIterator.client self
  ∧ _PageIterator.path it = _PageIterator.path self
  ∧ _PageIterator.query it = _PageIterator.query self
  ∧ _PageIterator.next_page it = _PageIterator.next_page self
  ∧ (_PageIterator.options it = _PageIterator.options self
     ∨ _PageIterator.options it = delete "offset" (_PageIterator.options self)).
Proof.
  unfold _PageIterator.fetch. destruct (eq_False (_PageIterator.next_page self)).
  - destruct ((lift _ ;;; Client.get _ _ _ _) w) as [r w']. cbn. auto 10.
  - destruct ((cursor_path <- lift _ ;; _) w) as [r w']. cbn. auto 10.
Qed.

Lemma store_preserves (self : _PageIterator.t) (result : value) :
  let it := snd (_PageIterator.store_and_return self result) in
  _PageIterator.client it = _PageIterator.client self
  ∧ _PageIterator.path it = _PageIterator.path self
  ∧ _PageIterator.query it = _PageIterator.query self
  ∧ _PageIterator.options it = _PageIterator.options self.
Proof. destruct result; cbn; auto. Qed.

Lemma step_preserves (self : _PageIterator.t) (w : world) :
  let it := snd (fst (_PageIterator.__next__ self w)) in
  _PageIterator.client it = _PageIterator.client self
  ∧ _PageIterator.path it = _PageIterator.path self
  ∧ _PageIterator.query it = _PageIterator.query self
  ∧ (_PageIterator.options it = _PageIterator.options self
     ∨ _PageIterator.options it = delete "offset" (_PageIterator.options self)).
Proof.
  unfold _PageIterator.__next__.
  destruct (negb (eq_None (_PageIterator.next_page self))); [|cbn; auto].
  pose proof (fetch_preserves self w) as Hf. cbn zeta in Hf.
  destruct (_PageIterator.fetch self w) as [[[result|e| |] it] w'];
    cbn [fst snd] in *; try tauto.
  pose proof (store_preserves it result) as Hs. cbn zeta in Hs.
  destruct (_PageIterator.store_and_return it result) as [r it']. cbn [fst snd] in *.
  destruct Hs as (-> & -> & -> & ->), Hf as (-> & -> & -> & _ & Ho). auto.
Qed.

Lemma steps_preserve (n : nat) :
  ∀ (self : _PageIterator.t) (w : world),
  let it := snd (fst (steps n self w)) in
  _PageIterator.client it = _PageIterator.client self
  ∧ _PageIterator.path it = _PageIterator.path self
  ∧ _PageIterator.query it = _PageIterator.query self
  ∧ (_PageIterator.options it = _PageIterator.options self
     ∨ _PageIterator.options it = delete "offset" (_PageIterator.options self)).
Proof.
  induction n as [|n IH]; intros self w; [cbn; auto|].
  cbn [steps]. pose proof (step_preserves self w) as Hstep. cbn zeta in Hstep.
  destruct (_PageIterator.__next__ self w) as [[r self'] w']. cbn [fst snd] in Hstep.
  specialize (IH self' w'). cbn zeta in IH.
  destruct (steps n self' w') as [[rs self''] w'']. cbn [fst snd] in *.
  destruct Hstep as (<- & <- & <- & Ho), IH as (-> & -> & -> & Ho').
  split_and!; auto.
  destruct Ho as [<- | Ho], Ho' as [-> | ->]; auto.
  right. rewrite Ho. apply delete_delete_eq.
Qed.

End IteratorState.

(** X15 What the steps of a page iterator leave alone.  After any number
    of steps, whatever their outcomes, the iterator has the client, the
    path and the query it was built with, and its options are the ones it
    had, with at most [offset] dropped: every other option is carried
    unchanged, and an iterator built by the constructor keeps asking for
    the full payload. *)
Theorem steps_keep_the_iterator `{ErrorModule} (n : nat) (self : _PageIterator.t)
    (w : world) :
  let it := snd (fst (steps n self w)) in
  _PageIterator.client it = _PageIterator.client self
  ∧ _PageIterator.path it = _PageIterator.path self
  ∧ _PageIterator.query it = _PageIterator.query self
  ∧ (∀ key, key ≠ "offset" →
            _PageIterator.options it !! key = _PageIterator.options self !! key)
  ∧ (∀ client path query options,
       self = _PageIterator.__init__ client path query options →
       _PageIterator.options it !! "full_payload" = Some (VBool true)).
Proof.
  pose proof (steps_preserve n self w) as Hp. cbn zeta in *.
  destruct Hp as (Hc & Hpath & Hq & Ho).
  assert (Hkeep : ∀ key, key ≠ "offset" →
            _PageIterator.options (snd (fst (steps n self w))) !! key
            = _PageIterator.options self !! key).
  { intros key Hkey. destruct Ho as [-> | ->]; [reflexivity|].
    apply lookup_delete_ne. congruence. }
  split_and!; auto.
  intros client path query options ->. rewrite Hkeep by discriminate.
  unfold _PageIterator.__init__, _merge, update; simpl.
  rewrite lookup_union_l'; [apply lookup_singleton_eq|].
  rewrite lookup_singleton_eq. eauto.
Qed.

(** X16 Failure of a step.  When the request of a step fails, the step
    raises the same error and leaves the cursor where it was, so that the
    step can be taken again.  When the envelope returned has no [data], the
    step raises [KeyError] after it has moved the cursor on: the next step
    goes to the following page. *)
Theorem failed_step_and_cursor `{ErrorModule} (self : _PageIterator.t) (w : world) :
  _PageIterator.next_page self ≠ VNone →
  (∀ e self0 w',
     _PageIterator.fetch self w = (Raise e, self0, w') →
     _PageIterator.__next__ self w = (Raise e, self0, w')
     ∧ _PageIterator.next_page self0 = _PageIterator.next_page self)
  ∧ (∀ entries self0 w',
       _PageIterator.fetch self w = (Ok (VDict entries), self0, w') →
       entries !! "data" = None →
       ∃ self1,
         _PageIterator.__next__ self w = (Raise (KeyError "data"), self1, w')
         ∧ _PageIterator.next_page self1 = default VNone (entries !! "next_page")).
Proof.
  intros Hlive.
  assert (Htest : negb (eq_None (_PageIterator.next_page self)) = true)
    by (destruct (_PageIterator.next_page self); try reflexivity; contradiction).
  split.
  - intros e self0 w' Hf. unfold _PageIterator.__next__. rewrite Htest, Hf.
    split; [reflexivity|].
    pose proof (fetch_preserves self w) as Hp. cbn zeta in Hp. rewrite Hf in Hp.
    cbn [fst snd] in Hp. tauto.
  - intros entries self0 w' Hf Hdata.
    exists (_PageIterator.set_next_page self0 (default VNone (entries !! "next_page"))).
    unfold _PageIterator.__next__. rewrite Htest, Hf.
    cbn [_PageIterator.store_and_return]. unfold getitem. rewrite Hdata.
    split; reflexivity.
Qed.

Lemma failed_step_and_cursor_witness :
  _PageIterator.next_page
    (snd (fst (@_PageIterator.__next__ taxonomy tasks_from_offset
                 (fresh [answer 404 VNone]))))
  = VBool false.
Proof.
  destruct (proj1 (@failed_step_and_cursor taxonomy tasks_from_offset
                     (fresh [answer 404 VNone]) ltac:(discriminate))
              (AsanaError (error_class_of "NotFound" 404 false false)
                 (answer 404 VNone))
              (snd (fst (@_PageIterator.fetch taxonomy tasks_from_offset
                           (fresh [answer 404 VNone]))))
              (snd (@_PageIterator.fetch taxonomy tasks_from_offset
                      (fresh [answer 404 VNone])))
              ltac:(vm_compute; reflexivity)) as [Hstep _].
  rewrite Hstep. vm_compute. reflexivity.
Defined.

(** X17 A cursor that equals [False].  The test for the first request is
    [self.next_page == False], which holds of the JSON values [false], [0]
    and [0.0] too: when the envelope of a step carries one of them as
    [next_page], the next step does not stop and does not follow a cursor,
    it asks again for the path and the query the iterator was built with. *)
Theorem false_cursor_starts_over `{ErrorModule} (self self0 : _PageIterator.t)
    (w w1 : world) (entries : dict) (v : value) :
  _PageIterator.next_page self ≠ VNone →
  _PageIterator.fetch self w = (Ok (VDict entries), self0, w1) →
  entries !! "next_page" = Some v →
  eq_False v = true →
  bind_keywords ["self"; "path"; "query"] (_PageIterator.options self0) = Ok tt →
  ∀ w2, ∃ evs,
    trace (snd (_PageIterator.__next__
                  (snd (fst (_PageIterator.__next__ self w))) w2))
    = trace w2
      ++ Get (_PageIterator.path self) (_PageIterator.query self)
             (_PageIterator.options self0) :: evs
    ∧ gets evs = [].
Proof.
  intros Hlive Hf Hnext Hfalse Hbind w2.
  assert (Htest : negb (eq_None (_PageIterator.next_page self)) = true)
    by (destruct (_PageIterator.next_page self); try reflexivity; contradiction).
  pose proof (fetch_preserves self w) as Hp. cbn zeta in Hp. rewrite Hf in Hp.
  cbn [fst snd] in Hp. destruct Hp as (Hc & Hpath & Hq & _ & _).
  assert (Hstep : snd (fst (_PageIterator.__next__ self w))
                  = _PageIterator.set_next_page self0 v).
  { unfold _PageIterator.__next__. rewrite Htest, Hf.
    cbn [_PageIterator.store_and_return fst snd]. rewrite Hnext. reflexivity. }
  rewrite Hstep.
  assert (Hv : v ≠ VNone) by (intros ->; discriminate).
  destruct (step_fetches (_PageIterator.set_next_page self0 v) w2) as [-> _];
    [exact Hv|].
  unfold _PageIterator.fetch.
  cbn [_PageIterator.set_next_page _PageIterator.next_page _PageIterator.options
       _PageIterator.client _PageIterator.path _PageIterator.query].
  rewrite Hfalse. unfold bind at 1. rewrite Hbind. unfold lift at 1.
  rewrite Hpath, Hq.
  destruct (get_footprint (_PageIterator.client self0) (_PageIterator.path self)
              (_PageIterator.query self) (_PageIterator.options self0) w2)
    as [Hevs _].
  destruct (Client.get _ _ _ _ w2) as [r w3]. exact Hevs.
Qed.

Lemma false_cursor_starts_over_witness :
  ∃ evs,
    trace (snd (@_PageIterator.__next__ taxonomy
                  (snd (fst (@_PageIterator.__next__ taxonomy tasks_from_offset
                               (fresh [answer 200 (envelope (VList []) (VInt 0))]))))
                  (fresh [])))
    = trace (fresh [])
      ++ Get (_PageIterator.path tasks_from_offset)
             (_PageIterator.query tasks_from_offset)
             (_PageIterator.options tasks_from_offset) :: evs
    ∧ gets evs = [].
Proof.
  exact (@false_cursor_starts_over taxonomy tasks_from_offset tasks_from_offset
           (fresh [answer 200 (envelope (VList []) (VInt 0))])
           (snd (@_PageIterator.fetch taxonomy tasks_from_offset
                   (fresh [answer 200 (envelope (VList []) (VInt 0))])))
           (<["data" := VList []]> (<["next_page" := VInt 0]> ∅)) (VInt 0)
           ltac:(discriminate)
           ltac:(vm_compute; reflexivity)
           ltac:(vm_compute; reflexivity)
           ltac:(reflexivity)
           ltac:(vm_compute; reflexivity)
           (fresh [])).
Defined.

(** ** A collection served page by page *)

(** [fetches] reads the options at the keys of [settings] only. *)
Lemma fetches_ext (self : Client.t) (options options' : dict) (base : string) :
  (∀ key, key ∈ settings → options' !! key = options !! key) →
  fetches self options base → fetches self options' base.
Proof.
  intros Hsame [Hapi Hstep Hcall Hbase Hretries Hdelay].
  assert (Hm : ∀ key, key ∈ settings →
            Client._merge_options self [options'] !! key
            = Client._merge_options self [options] !! key).
  { intros key Hkey. rewrite !merge_options_lookup, (Hsame key Hkey). reflexivity. }
  split.
  - destruct Hapi as [api Hapi]. exists api. rewrite <- Hapi.
    unfold Client._parse_api_options, Client._select_options. cbn [omap list_omap].
    rewrite !Hm by (unfold settings; repeat constructor). reflexivity.
  - rewrite <- Hstep. unfold bind_keywords. cbn [existsb].
    rewrite !Hsame by (unfold settings; repeat constructor). reflexivity.
  - rewrite <- Hcall. unfold bind_keywords. cbn [existsb].
    rewrite !Hsame by (unfold settings; repeat constructor). reflexivity.
  - rewrite Hm by (unfold settings; repeat constructor). exact Hbase.
  - rewrite Hm by (unfold settings; repeat constructor). exact Hretries.
  - rewrite Hm by (unfold settings; repeat constructor). exact Hdelay.
Qed.

Section Served.
Context `{ErrorModule}.
Variables (self : Client.t) (base : string) (code : Z).
Hypothesis Hcode : STATUS_MAP !! Some code = None.

(** One call of [get] against a server about to send a page: it returns
    the envelope after one call of the transport, at the base URL followed
    by the path. *)
Lemma get_served (p : string) (query options : dict) (page : list value)
    (next : value) (rest : list response) (tr : list event) :
  fetches self options base →
  Client._merge_options self [options] !! "full_payload" = Some (VBool true) →
  ∃ ro,
    Client.get self (VStr p) query options
      {| server := page_of code page next :: rest; trace := tr |}
    = (Ok (VDict (<["data" := VList page]> (<["next_page" := next]> ∅))),
       {| server := rest;
          trace := tr ++ [Get (VStr p) query options;
                          Transport "get" (base +:+ p) ro] |}).
Proof.
  intros [[api Hapi] _ Hcall Hbase [configured Hretries] [delay Hdelay]] Hfull.
  rewrite (get_unfold self (VStr p) query options api _ Hapi), Hcall.
  cbn [server trace].
  set (sent := <["params" := VDict (query_of_get self api query options)]> options).
  assert (Hother : ∀ key, key ≠ "params" →
            Client._merge_options self [sent] !! key
            = Client._merge_options self [options] !! key).
  { intros key Hkey. rewrite !merge_options_lookup. unfold sent.
    rewrite lookup_insert_ne by congruence. reflexivity. }
  destruct (parse_request_options_dict self (Client._merge_options self [sent])
              (query_of_get self api query options)) as (ro & Hro & _).
  { rewrite merge_options_again, merge_options_lookup. unfold sent.
    rewrite lookup_insert_eq. reflexivity. }
  exists ro.
  rewrite (request_resolved self "get" (VStr p) sent (base +:+ p) configured delay ro).
  - cbn [server length Client.loop]. unfold bind at 1.
    rewrite iteration_unmapped by exact Hcode.
    unfold getitem. rewrite Hother, Hfull by discriminate.
    cbn. rewrite <- app_assoc. reflexivity.
  - split.
    + unfold getitem. rewrite Hother, Hbase by discriminate. reflexivity.
    + rewrite Hother by discriminate. exact Hretries.
    + rewrite Hother by discriminate. exact Hdelay.
    + exact Hro.
Qed.

Lemma envelope_data (page : list value) (next : value) :
  getitem (<["data" := VList page]> (<["next_page" := next]> ∅)) "data"
  = Ok (VList page).
Proof. unfold getitem. rewrite lookup_insert_eq. reflexivity. Qed.

Lemma envelope_next (page : list value) (next : value) :
  (<["data" := VList page]> (<["next_page" := next]> ∅) : dict) !! "next_page"
  = Some next.
Proof. rewrite lookup_insert_ne by discriminate. apply lookup_insert_eq. Qed.

(** One step of the iterator against a server about to send a page. *)
Lemma step_served (it : _PageIterator.t) (p : string) (page : list value)
    (next : value) (rest : list response) (tr : list event) :
  _PageIterator.client it = self →
  fetches self (_PageIterator.options it) base →
  Client._merge_options self [_PageIterator.options it] !! "full_payload"
  = Some (VBool true) →
  at_page it p →
  ∃ it' q o ro,
    _PageIterator.__next__ it
      {| server := page_of code page next :: rest; trace := tr |}
    = (Ok (VList page), it',
       {| server := rest;
          trace := tr ++ [Get (VStr p) q o; Transport "get" (base +:+ p) ro] |})
    ∧ _PageIterator.client it' = self
    ∧ fetches self (_PageIterator.options it') base
    ∧ Client._merge_options self [_PageIterator.options it'] !! "full_payload"
      = Some (VBool true)
    ∧ _PageIterator.next_page it' = next.
Proof.
  destruct it as [client path query options cursor]. unfold at_page.
  cbn [_PageIterator.client _PageIterator.options _PageIterator.next_page
       _PageIterator.path].
  intros -> Hfetches Hfull [[-> ->] | ->];
    unfold _PageIterator.__next__, _PageIterator.fetch, _PageIterator.set_options;
    cbn [_PageIterator.client _PageIterator.options _PageIterator.next_page
         _PageIterator.path _PageIterator.query eq_None eq_False as_number negb
         Z.b2z Z.eqb subscript].
  - unfold bind at 1, lift at 1.
    rewrite (fetches_step _ _ _ Hfetches).
    destruct (get_served p query options page next rest tr Hfetches Hfull)
      as [ro ->].
    unfold _PageIterator.store_and_return.
    rewrite envelope_data, envelope_next.
    eexists _, query, options, ro. split; [reflexivity|]. cbn. auto.
  - assert (Hdropped : fetches self (delete "offset" options) base).
    { apply (fetches_ext self options); [|exact Hfetches].
      intros key Hkey. apply lookup_delete_ne. intros <-. revert Hkey.
      unfold settings. rewrite !elem_of_cons, elem_of_nil.
      intuition discriminate. }
    assert (Hfull' : Client._merge_options self [delete "offset" options]
                     !! "full_payload" = Some (VBool true)).
    { rewrite merge_options_lookup, lookup_delete_ne by discriminate.
      rewrite <- merge_options_lookup. exact Hfull. }
    unfold bind at 1, lift at 1, getitem at 1.
    rewrite lookup_insert_eq. unfold bind at 1, lift at 1.
    rewrite (fetches_step _ _ _ Hdropped).
    destruct (get_served p ∅ (delete "offset" options) page next rest tr
                Hdropped Hfull') as [ro ->].
    unfold _PageIterator.store_and_return.
    rewrite envelope_data, envelope_next.
    eexists _, ∅, (delete "offset" options), ro. split; [reflexivity|]. cbn. auto.
Qed.

(** The run of an iterator over the pages the server sends. *)
Lemma served_page_run (more : list (string * list value)) :
  ∀ (it : _PageIterator.t) (p : string) (first : list value) (tr : list event),
  _PageIterator.client it = self →
  fetches self (_PageIterator.options it) base →
  Client._merge_options self [_PageIterator.options it] !! "full_payload"
  = Some (VBool true) →
  at_page it p →
  ∃ w',
    page_run it {| server := serve code first more; trace := tr |}
      (first :: more.*2) w'
    ∧ server w' = []
    ∧ (λ call, call.1) <$> transports (trace w')
      = ((λ call, call.1) <$> transports tr)
        ++ ((λ p, ("get", base +:+ p)) <$> (p :: more.*1))
    ∧ sleeps (trace w') = sleeps tr.
Proof.
  induction more as [|[next page] more IH];
    intros it p first tr Hclient Hfetches Hfull Hat.
  - destruct (step_served it p first VNone [] tr Hclient Hfetches Hfull Hat)
      as (it' & q & o & ro & Hstep & _ & _ & _ & Hnext).
    eexists. split_and!.
    + eapply run_page; [exact Hstep|].
      eapply run_end. apply exhausted_step. exact Hnext.
    + reflexivity.
    + cbn [trace]. rewrite transports_app, fmap_app. reflexivity.
    + cbn [trace]. rewrite sleeps_app. cbn. apply app_nil_r.
  - destruct (step_served it p first
                (VDict (<["path" := VStr next]> (<["offset" := VStr "X"]> ∅)))
                (serve code page more) tr Hclient Hfetches Hfull Hat)
      as (it' & q & o & ro & Hstep & Hclient' & Hfetches' & Hfull' & Hnext).
    destruct (IH it' next page
                (tr ++ [Get (VStr p) q o; Transport "get" (base +:+ p) ro])
                Hclient' Hfetches' Hfull' (or_intror Hnext))
      as (w' & Hrun & Hserver & Hcalls & Hsleeps).
    exists w'. split_and!.
    + eapply run_page; [exact Hstep|exact Hrun].
    + exact Hserver.
    + rewrite Hcalls, transports_app, fmap_app, <- app_assoc. reflexivity.
    + rewrite Hsleeps, sleeps_app. cbn. apply app_nil_r.
Qed.

(** The iterator [get_collection] builds from options that fetch. *)
Lemma iterator_page_run (path : string) (query options : dict)
    (first : list value) (more : list (string * list value)) (tr : list event) :
  fetches self options base →
  ∃ w',
    page_run (_get_page_iterator self (VStr path) query options)
      {| server := serve code first more; trace := tr |}
      (first :: more.*2) w'
    ∧ server w' = []
    ∧ (λ call, call.1) <$> transports (trace w')
      = ((λ call, call.1) <$> transports tr)
        ++ ((λ p, ("get", base +:+ p)) <$> (path :: more.*1))
    ∧ sleeps (trace w') = sleeps tr.
Proof.
  intros Hfetches. apply served_page_run.
  - reflexivity.
  - apply (fetches_ext self options); [|exact Hfetches].
    intros key Hkey. cbn [_get_page_iterator _PageIterator.__init__
                            _PageIterator.options].
    unfold _merge, update; cbn [foldl].
    rewrite !lookup_union, lookup_empty, lookup_singleton_ne.
    + destruct (options !! key); reflexivity.
    + intros <-. revert Hkey. unfold settings.
      rewrite !elem_of_cons, elem_of_nil. intuition discriminate.
  - rewrite merge_options_lookup.
    cbn [_get_page_iterator _PageIterator.__init__ _PageIterator.options].
    unfold _merge, update; cbn [foldl].
    rewrite lookup_union, lookup_singleton_eq.
    destruct ((options ∪ ∅) !! "full_payload"); reflexivity.
  - left. split; reflexivity.
Qed.

End Served.

(** X18 A collection read page by page.  With [iterator_type] resolved
    to ['pages'], [get_collection] returns a page iterator without any
    request; stepped against a server that sends the collection page by
    page, each page but the last with the cursor of the next, the iterator
    returns the pages in order and then stops.  It has then called the
    transport once per page, first at the base URL followed by the path of
    the call and then at the base URL followed by the path of each cursor
    in turn, all with the method [get], has slept at no point and has left
    no response unread. *)
Theorem collection_comes_page_by_page `{ErrorModule} (self : Client.t)
    (path base : string) (query options : dict) (code : Z) (first : list value)
    (more : list (string * list value)) (tr : list event) :
  STATUS_MAP !! Some code = None →
  Client._merge_options self [options] !! "iterator_type" = Some (VStr "pages") →
  fetches self (Client._merge_options self [options]) base →
  ∃ it w',
    get_collection self (VStr path) query options
      {| server := serve code first more; trace := tr |}
    = (Ok (Pages it), {| server := serve code first more; trace := tr |})
    ∧ page_run it {| server := serve code first more; trace := tr |}
        (first :: more.*2) w'
    ∧ server w' = []
    ∧ (λ call, call.1) <$> transports (trace w')
      = ((λ call, call.1) <$> transports tr)
        ++ ((λ p, ("get", base +:+ p)) <$> (path :: more.*1))
    ∧ sleeps (trace w') = sleeps tr.
Proof.
  intros Hcode Htype Hfetches.
  destruct (iterator_page_run self base code Hcode path query
              (Client._merge_options self [options]) first more tr Hfetches)
    as (w' & Hrun & Hrest).
  exists (_get_page_iterator self (VStr path) query
            (Client._merge_options self [options])), w'.
  split; [|split; [exact Hrun|exact Hrest]].
  unfold get_collection, getitem. rewrite Htype, bind_ok, eq_str_true.
  rewrite (fetches_step _ _ _ Hfetches). reflexivity.
Qed.

(** X19 A collection read item by item.  With [iterator_type] resolved
    to ['items'], [get_collection] returns the generator without any
    request; consumed against a server that sends the collection page by
    page, the generator yields the items of the pages in the order sent, one
    call of the transport per page, and then ends as its statement
    [raise StopIteration] ends it: in [RuntimeError] under PEP 479, normally
    before it. *)
Theorem collection_comes_item_by_item `{ErrorModule} (self : Client.t)
    (path base : string) (query options : dict) (code : Z) (first : list value)
    (more : list (string * list value)) (tr : list event)
    (pep479 : bool) (fuel : nat) :
  STATUS_MAP !! Some code = None →
  Client._merge_options self [options] !! "iterator_type" = Some (VStr "items") →
  fetches self (Client._merge_options self [options]) base →
  length (first ++ concat more.*2) < fuel →
  ∃ items w',
    get_collection self (VStr path) query options
      {| server := serve code first more; trace := tr |}
    = (Ok (Items items), {| server := serve code first more; trace := tr |})
    ∧ consume pep479 fuel items {| server := serve code first more; trace := tr |}
      = (first ++ concat more.*2, end_of_items pep479, w')
    ∧ server w' = []
    ∧ attempts (trace w') = attempts tr + S (length more).
Proof.
  intros Hcode Htype Hfetches Hfuel.
  destruct (iterator_page_run self base code Hcode path query
              (Client._merge_options self [options]) first more tr Hfetches)
    as (w' & Hrun & Hserver & Hcalls & _).
  exists (_get_item_iterator self (VStr path) query
            (Client._merge_options self [options])), w'.
  split_and!.
  - unfold get_collection, getitem. rewrite Htype, bind_ok.
    rewrite eq_str_false by discriminate.
    rewrite eq_str_true, (fetches_step _ _ _ Hfetches). reflexivity.
  - apply (item_iterator_flattens pep479 self (VStr path) query
             (Client._merge_options self [options]) (first :: more.*2) _ w' fuel
             Hrun Hfuel).
  - exact Hserver.
  - unfold attempts. apply (f_equal length) in Hcalls.
    rewrite length_app, !length_fmap in Hcalls. cbn [length] in Hcalls.
    rewrite length_fmap in Hcalls. exact Hcalls.
Qed.

Lemma collection_comes_page_by_page_witness :
  ∃ it w',
    @get_collection taxonomy default_client (VStr "/tasks") ∅ ∅ (fresh tasks_served)
    = (Ok (Pages it), fresh tasks_served)
    ∧ @page_run taxonomy it (fresh tasks_served)
        [[VStr "t1"; VStr "t2"]; [VStr "t3"]] w'
    ∧ server w' = []
    ∧ (λ call, call.1) <$> transports (trace w')
      = [("get", "https://app.asana.com/api/1.0/tasks");
         ("get", "https://app.asana.com/api/1.0/tasks?offset=X")].
Proof.
  destruct (@collection_comes_page_by_page taxonomy default_client "/tasks"
              "https://app.asana.com/api/1.0" ∅ ∅ 200 [VStr "t1"; VStr "t2"]
              [("/tasks?offset=X", [VStr "t3"])] []
              ltac:(vm_compute; reflexivity) ltac:(vm_compute; reflexivity)
              ltac:(split; vm_compute; eauto))
    as (it & w' & Hget & Hrun & Hserver & Hcalls & _).
  exists it, w'. split_and!; [exact Hget|exact Hrun|exact Hserver|exact Hcalls].
Defined.

Lemma collection_comes_item_by_item_witness :
  ∃ items w',
    @get_collection taxonomy default_client (VStr "/tasks") ∅ items_option
      (fresh tasks_served)
    = (Ok (Items items), fresh tasks_served)
    ∧ @consume taxonomy true 4 items (fresh tasks_served)
      = ([VStr "t1"; VStr "t2"; VStr "t3"], Failed RuntimeError, w')
    ∧ server w' = [].
Proof.
  destruct (@collection_comes_item_by_item taxonomy default_client "/tasks"
              "https://app.asana.com/api/1.0" ∅ items_option 200
              [VStr "t1"; VStr "t2"] [("/tasks?offset=X", [VStr "t3"])] [] true 4
              ltac:(vm_compute; reflexivity) ltac:(vm_compute; reflexivity)
              ltac:(split; vm_compute; eauto) ltac:(cbn; lia))
    as (items & w' & Hget & Hconsume & Hserver & _).
  exists items, w'. split_and!; [exact Hget|exact Hconsume|exact Hserver].
Defined.

(** ** The requests of a page iterator *)

Section FirstCall.
Context `{ErrorModule}.
Variables (method url : string) (ro options : dict).

(** With a response to take, the loop of [request] starts with a call of
    the transport; what follows adds no call of [get]. *)
Lemma loop_calls_first (fuel : nat) (st : Client.retry_state) (r : response)
    (rest : list response) (tr : list event) :
  ∃ evs,
    trace (snd (Client.loop (S fuel) method url ro options st
                  {| server := r :: rest; trace := tr |}))
    = tr ++ Transport method url ro :: evs
    ∧ gets evs = [].
Proof.
  set (w1 := {| server := rest; trace := tr ++ [Transport method url ro] |}).
  assert (Hq : quiet w1 (snd (Client.loop (S fuel) method url ro options st
                                {| server := r :: rest; trace := tr |}))).
  { cbn [Client.loop]. unfold bind at 1, Client.iteration, Client.try_body.
    unfold bind at 1, Client.transport at 1. cbn [server trace]. fold w1.
    match goal with |- context [match ?c w1 with _ => _ end] =>
      assert (Hc : quiet w1 (snd (c w1)));
      [|destruct (c w1) as [[v|e| |] w2]; cbn [snd] in Hc |- *]
    end.
    - destruct (STATUS_MAP !! Some (status_code r)); [apply calm_lift|].
      apply calm_bind; [apply calm_lift|]. intros full.
      apply calm_bind; [apply calm_lift|]. intros body.
      destruct (truthy full); [apply calm_ret|apply calm_lift].
    - exact Hc.
    - destruct (Client.is_retryable e); [|exact Hc].
      eapply quiet_trans; [exact Hc|].
      match goal with |- quiet w2 (snd (let (_, _) := ?c w2 in _)) =>
        pose proof (calm_bind c
                      (λ x, match x with
                            | inl v => ret v
                            | inr st' => Client.loop fuel method url ro options st'
                            end)) as Hb
      end.
      unfold calm, bind in Hb. apply Hb.
      + apply calm_bind; [apply calm_handler|]. intros st'. apply calm_ret.
      + intros [v|st']; [apply calm_ret|apply calm_loop].
    - exact Hc.
    - exact Hc. }
  destruct Hq as [(evs & Ht & Hg) _]. exists evs. rewrite Ht. unfold w1.
  cbn [trace]. rewrite <- app_assoc. split; [reflexivity|exact Hg].
Qed.

End FirstCall.

(** The API options in query-string form hold no [offset]. *)
Lemma api_options_no_offset (self : Client.t) (options api : dict) :
  Client._parse_api_options self options true = Ok api → api !! "offset" = None.
Proof.
  unfold Client._parse_api_options. rewrite api_options_fold.
  destruct (query_form (_ !! "expand")) as [expand| | |]; try discriminate.
  destruct (query_form (_ !! "fields")) as [fields| | |]; try discriminate.
  destruct (query_form (_ !! "pretty")) as [pretty| | |]; try discriminate.
  cbn [rbind]. intros Heq. inversion Heq; subst.
  destruct pretty, fields, expand; cbn [put_entry];
    rewrite ?lookup_insert_ne by discriminate; apply lookup_empty.
Qed.

Section Calls.
Context `{ErrorModule}.
Variables (self : Client.t) (base : string).

(** The calls of [get] when the server has a response to give: the first
    goes to the base URL followed by the path, the later ones are retries of
    it, and [params] is the merged query with its booleans serialised. *)
Lemma get_calls (p : string) (query options : dict) (r : response)
    (rest : list response) (tr : list event) :
  fetches self options base →
  ∃ api ro evs,
    Client._parse_api_options self options true = Ok api
    ∧ trace (snd (Client.get self (VStr p) query options
                    {| server := r :: rest; trace := tr |}))
      = tr ++ Get (VStr p) query options :: Transport "get" (base +:+ p) ro :: evs
    ∧ gets evs = []
    ∧ (∀ call, call ∈ transports evs → call = ("get", base +:+ p, ro))
    ∧ ro !! "params"
      = Some (VDict (Client.dumps_bool <$> query_of_get self api query options)).
Proof.
  intros [[api Hapi] _ Hcall Hbase [configured Hretries] [delay Hdelay]].
  set (sent := <["params" := VDict (query_of_get self api query options)]> options).
  set (w1 := {| server := r :: rest; trace := tr ++ [Get (VStr p) query options] |}).
  assert (Hget : Client.get self (VStr p) query options
                   {| server := r :: rest; trace := tr |}
                 = Client.request self "get" (VStr p) sent w1).
  { rewrite (get_unfold self (VStr p) query options api _ Hapi), Hcall.
    reflexivity. }
  assert (Hother : ∀ key, key ≠ "params" →
            Client._merge_options self [sent] !! key
            = Client._merge_options self [options] !! key).
  { intros key Hkey. rewrite !merge_options_lookup. unfold sent.
    rewrite lookup_insert_ne by congruence. reflexivity. }
  destruct (parse_request_options_dict self (Client._merge_options self [sent])
              (query_of_get self api query options)) as (ro & Hro & Hparams).
  { rewrite merge_options_again, merge_options_lookup. unfold sent.
    rewrite lookup_insert_eq. reflexivity. }
  assert (Hres : resolves self sent (VStr p) (base +:+ p) configured delay ro).
  { split.
    - unfold getitem. rewrite Hother, Hbase by discriminate. reflexivity.
    - rewrite Hother by discriminate. exact Hretries.
    - rewrite Hother by discriminate. exact Hdelay.
    - exact Hro. }
  destruct (loop_calls_first "get" (base +:+ p) ro (Client._merge_options self [sent])
              (length rest)
              {| Client.retries := initial_retries configured;
                 Client.retry_delay := delay |} r rest
              (tr ++ [Get (VStr p) query options])) as (evs & Ht & Hg).
  destruct (request_transports self "get" (VStr p) sent w1)
    as (n & url' & ro' & Hcalls & _).
  rewrite (request_resolved self "get" (VStr p) sent (base +:+ p) configured delay ro
             Hres) in Hcalls.
  exists api, ro, evs. rewrite Hget.
  rewrite (request_resolved self "get" (VStr p) sent (base +:+ p) configured delay ro
             Hres).
  unfold w1 in Hcalls |- *. cbn [server length] in Hcalls |- *.
  rewrite Ht in Hcalls |- *. cbn [trace] in Hcalls.
  split_and!; [exact Hapi|rewrite <- app_assoc; reflexivity|exact Hg| |exact Hparams].
  rewrite transports_app in Hcalls. apply app_inv_head in Hcalls.
  change (transports (Transport "get" (base +:+ p) ro :: evs))
    with (("get", base +:+ p, ro) :: transports evs) in Hcalls.
  destruct n as [|n]; [discriminate|].
  cbn [replicate] in Hcalls. inversion Hcalls; subst.
  intros call Hin. match goal with Heq : transports evs = _ |- _ =>
    rewrite Heq in Hin end.
  apply elem_of_replicate in Hin. tauto.
Qed.

End Calls.

Lemma query_of_get_lookup (self : Client.t) (api query options : dict) (key : string) :
  query_of_get self api query options !! key
  = match query !! key with
    | Some v => Some v
    | None =>
        match api !! key with
        | Some v => Some v
        | None => Client._parse_query_options self options !! key
        end
    end.
Proof.
  unfold query_of_get, _merge, update; simpl.
  rewrite !lookup_union, lookup_empty.
  destruct (query !! key), (api !! key),
    (Client._parse_query_options self options !! key); reflexivity.
Qed.

(** C8, where the code departs from it.  With a live cursor the step
    drops [offset] from the options it carries and makes one call of [get],
    for the path of the cursor with an empty query; the request goes to the
    base URL followed by that path, its parameters come from the options
    alone, and the cursor becomes the [next_page] of the envelope returned.
    But [get] merges the options of the client under the carried ones
    again: the [offset] the request sends is the one of the client itself.
    Nothing is sent when the client has none, whatever [offset] the call
    had set; an [offset] given to the constructor of the client is sent
    with every request that follows a cursor.  The first step, taken before
    there is any cursor, requests the path the iterator was built with,
    under its query. *)
Theorem cursor_step_sends_client_offset `{ErrorModule} (self : _PageIterator.t)
    (base : string) (r : response) (rest : list response) (tr : list event) :
  (∀ (cur : dict) (p : string),
     _PageIterator.next_page self = VDict cur →
     cur !! "path" = Some (VStr p) →
     fetches (_PageIterator.client self)
       (delete "offset" (_PageIterator.options self)) base →
     ∃ api ro sent evs,
       trace (snd (_PageIterator.__next__ self
                     {| server := r :: rest; trace := tr |}))
       = tr ++ Get (VStr p) ∅ (delete "offset" (_PageIterator.options self))
            :: Transport "get" (base +:+ p) ro :: evs
       ∧ gets evs = []
       ∧ (∀ call, call ∈ transports evs → call = ("get", base +:+ p, ro))
       ∧ Client._parse_api_options (_PageIterator.client self)
           (delete "offset" (_PageIterator.options self)) true = Ok api
       ∧ ro !! "params" = Some (VDict sent)
       ∧ (∀ key,
            sent !! key
            = Client.dumps_bool
                <$> match api !! key with
                    | Some v => Some v
                    | None =>
                        Client._parse_query_options (_PageIterator.client self)
                          (delete "offset" (_PageIterator.options self)) !! key
                    end)
       ∧ sent !! "offset"
         = Client.dumps_bool
             <$> Client.options (_PageIterator.client self) !! "offset"
       ∧ _PageIterator.options
           (snd (fst (_PageIterator.__next__ self
                        {| server := r :: rest; trace := tr |})))
         = delete "offset" (_PageIterator.options self)
       ∧ (∀ entries w',
            Client.get (_PageIterator.client self) (VStr p) ∅
              (delete "offset" (_PageIterator.options self))
              {| server := r :: rest; trace := tr |}
            = (Ok (VDict entries), w') →
            _PageIterator.__next__ self {| server := r :: rest; trace := tr |}
            = (getitem entries "data",
               _PageIterator.set_next_page
                 (_PageIterator.set_options self
                    (delete "offset" (_PageIterator.options self)))
                 (default VNone (entries !! "next_page")),
               w')))
  ∧ (∀ (p : string),
       _PageIterator.next_page self = VBool false →
       _PageIterator.path self = VStr p →
       fetches (_PageIterator.client self) (_PageIterator.options self) base →
       ∃ ro sent evs,
         trace (snd (_PageIterator.__next__ self
                       {| server := r :: rest; trace := tr |}))
         = tr ++ Get (VStr p) (_PageIterator.query self) (_PageIterator.options self)
              :: Transport "get" (base +:+ p) ro :: evs
         ∧ gets evs = []
         ∧ (∀ call, call ∈ transports evs → call = ("get", base +:+ p, ro))
         ∧ ro !! "params" = Some (VDict sent)
         ∧ (∀ key v, _PageIterator.query self !! key = Some v →
                     sent !! key = Some (Client.dumps_bool v))).
Proof.
  set (w := {| server := r :: rest; trace := tr |}). split.
  - intros cur p Hcur Hp Hfetches.
    set (carried := delete "offset" (_PageIterator.options self)) in *.
    assert (Hlive : _PageIterator.next_page self ≠ VNone)
      by (rewrite Hcur; discriminate).
    destruct (step_fetches self w Hlive) as [Hw Ho].
    pose proof (cursor_fetch self cur (VStr p) w Hcur Hp
                  (fetches_step _ _ _ Hfetches)) as Hfetch.
    fold carried in Hfetch.
    destruct (get_calls (_PageIterator.client self) base p ∅ carried r rest tr
                Hfetches) as (api & ro & evs & Hapi & Ht & Hg & Hcalls & Hparams).
    fold w in Ht.
    assert (Hsent : ∀ key,
              (Client.dumps_bool
                 <$> query_of_get (_PageIterator.client self) api ∅ carried) !! key
              = Client.dumps_bool
                  <$> match api !! key with
                      | Some v => Some v
                      | None =>
                          Client._parse_query_options (_PageIterator.client self)
                            carried !! key
                      end).
    { intros key. rewrite lookup_fmap, query_of_get_lookup, lookup_empty.
      reflexivity. }
    exists api, ro,
      (Client.dumps_bool <$> query_of_get (_PageIterator.client self) api ∅ carried),
      evs.
    split_and!.
    + rewrite Hw, Hfetch.
      destruct (Client.get (_PageIterator.client self) (VStr p) ∅ carried w)
        as [out w']. exact Ht.
    + exact Hg.
    + exact Hcalls.
    + exact Hapi.
    + exact Hparams.
    + exact Hsent.
    + rewrite Hsent, (api_options_no_offset _ _ _ Hapi).
      unfold Client._parse_query_options, Client._select_options.
      rewrite select_lookup, bool_decide_eq_true_2 by (repeat constructor).
      rewrite merge_options_lookup. unfold carried.
      rewrite lookup_delete_eq. reflexivity.
    + rewrite Ho, Hfetch.
      destruct (Client.get (_PageIterator.client self) (VStr p) ∅ carried w)
        as [out w']. reflexivity.
    + intros entries w' Hget. unfold _PageIterator.__next__.
      rewrite Hcur. cbn [eq_None negb]. rewrite Hfetch, Hget. reflexivity.
  - intros p Hstart Hpath Hfetches.
    assert (Hlive : _PageIterator.next_page self ≠ VNone)
      by (rewrite Hstart; discriminate).
    destruct (step_fetches self w Hlive) as [Hw _].
    pose proof (first_fetch self w Hstart (fetches_step _ _ _ Hfetches)) as Hfetch.
    rewrite Hpath in Hfetch.
    destruct (get_calls (_PageIterator.client self) base p (_PageIterator.query self)
                (_PageIterator.options self) r rest tr Hfetches)
      as (api & ro & evs & Hapi & Ht & Hg & Hcalls & Hparams).
    fold w in Ht.
    exists ro,
      (Client.dumps_bool
         <$> query_of_get (_PageIterator.client self) api (_PageIterator.query self)
               (_PageIterator.options self)),
      evs.
    split_and!.
    + rewrite Hw, Hfetch.
      destruct (Client.get (_PageIterator.client self) (VStr p)
                  (_PageIterator.query self) (_PageIterator.options self) w)
        as [out w']. exact Ht.
    + exact Hg.
    + exact Hcalls.
    + exact Hparams.
    + intros key v Hkey. rewrite lookup_fmap, query_of_get_lookup, Hkey.
      reflexivity.
Qed.

Lemma cursor_step_sends_client_offset_witness :
  _PageIterator.options pages_of_client_with_offset !! "offset" = Some (VStr "A")
  ∧ ∃ ro sent evs,
      trace (snd (@_PageIterator.__next__ taxonomy pages_of_client_with_offset
                    (fresh [answer 200 (envelope (VList [VStr "t3"]) VNone)])))
      = Get (VStr "/tasks?offset=X") ∅
          (delete "offset" (_PageIterator.options pages_of_client_with_offset))
        :: Transport "get" "https://app.asana.com/api/1.0/tasks?offset=X" ro :: evs
      ∧ ro !! "params" = Some (VDict sent)
      ∧ sent !! "offset" = Some (VStr "A").
Proof.
  split; [vm_compute; reflexivity|].
  destruct (proj1 (@cursor_step_sends_client_offset taxonomy
                     pages_of_client_with_offset "https://app.asana.com/api/1.0"
                     (answer 200 (envelope (VList [VStr "t3"]) VNone)) [] [])
              (cursor_entries "/tasks?offset=X") "/tasks?offset=X"
              ltac:(vm_compute; reflexivity) ltac:(vm_compute; reflexivity)
              ltac:(split; vm_compute; eauto))
    as (api & ro & sent & evs & Ht & _ & _ & _ & Hparams & _ & Hoffset & _).
  exists ro, sent, evs. split_and!; [exact Ht|exact Hparams|exact Hoffset].
Defined.
